(** * The generation workflow of [src/App.tsx]

    A shallow embedding of the logic of the [App] component: the helper
    [fileToBase64], the handlers [checkApiKey], [handleSelectKey],
    [handleImageChange], [removeImage] and [handleGenerateVideo], and the
    React state they write.

    - A JavaScript string is its sequence of UTF-16 code units.
    - A thrown value is an [Error] object whose [message], a string, may be
      missing.
    - A handler is a computation that reads the state captured by its
      closure and the replies of the hosting environment and of the remote
      service, and produces the ordered list of the calls it makes (state
      setters and boundary calls) together with how it completes.  The
      state after a run is the captured state with the setter calls applied
      in order.
    - The [while] loop of [handleGenerateVideo] has no bound in the source.
      The embedding runs it for a number of iterations given as an
      argument, and a run that has not left the loop by then is reported as
      [Waiting], with the calls it has made so far.
    - [FileReader.readAsDataURL] is taken from the File API: the result is
      [data:], the file's type, [;base64,] and the base64 text of the
      bytes. *)

From Stdlib Require Import List NArith Bool Ascii String Arith Lia.
From Stdlib.Strings Require Import Byte.
Import ListNotations.

(** ** JavaScript strings *)

Module JS.

Definition jsstring := list N.

(** A string literal of the source (all of them are ASCII). *)
Definition lit (s : string) : jsstring :=
  List.map N_of_ascii (list_ascii_of_string s).

(** Truthiness of a string, and of a value that may be [null]/[undefined]. *)
Definition truthy (s : jsstring) : bool :=
  match s with [] => false | _ :: _ => true end.

Definition truthy_opt (o : option jsstring) : bool :=
  match o with Some s => truthy s | None => false end.

(** [a || b] on strings, where [a] may be [undefined]. *)
Definition or_else (o : option jsstring) (d : jsstring) : jsstring :=
  if truthy_opt o then match o with Some s => s | None => d end else d.

(** Interpolation [${x}] of a value that may be [undefined]. *)
Definition interpolate (o : option jsstring) : jsstring :=
  match o with Some s => s | None => lit "undefined" end.

(** White space and line terminators, as [String.prototype.trim] strips them. *)
Definition isWhiteSpace (c : N) : bool :=
  (N.eqb c 9 || N.eqb c 10 || N.eqb c 11 || N.eqb c 12 || N.eqb c 13
   || N.eqb c 32 || N.eqb c 160 || N.eqb c 5760
   || (N.leb 8192 c && N.leb c 8202)
   || N.eqb c 8232 || N.eqb c 8233 || N.eqb c 8239 || N.eqb c 8287
   || N.eqb c 12288 || N.eqb c 65279)%bool.

Fixpoint trimStart (s : jsstring) : jsstring :=
  match s with
  | [] => []
  | c :: s' => if isWhiteSpace c then trimStart s' else s
  end.

Definition trimEnd (s : jsstring) : jsstring := rev (trimStart (rev s)).

Definition trim (s : jsstring) : jsstring := trimEnd (trimStart s).

Fixpoint startsWith (s needle : jsstring) : bool :=
  match needle, s with
  | [], _ => true
  | _ :: _, [] => false
  | n :: needle', c :: s' => N.eqb n c && startsWith s' needle'
  end.

(** [s.includes(needle)] *)
Fixpoint includes (s needle : jsstring) : bool :=
  startsWith s needle
  || match s with [] => false | _ :: s' => includes s' needle end.

(** [s.split(sep)] for a separator of one code unit. *)
Fixpoint split_aux (sep : N) (cur : jsstring) (s : jsstring) : list jsstring :=
  match s with
  | [] => [rev cur]
  | c :: s' =>
      if N.eqb c sep then rev cur :: split_aux sep [] s'
      else split_aux sep (c :: cur) s'
  end.

Definition split (sep : N) (s : jsstring) : list jsstring := split_aux sep [] s.

Definition comma : N := 44.

End JS.
Import JS.

(** ** Base64 and data URLs, as [FileReader.readAsDataURL] produces them *)

Module Base64.

Definition alphabet (n : N) : N :=
  if N.ltb n 26 then 65 + n
  else if N.ltb n 52 then 97 + (n - 26)
  else if N.ltb n 62 then 48 + (n - 52)
  else if N.eqb n 62 then 43
  else 47.

Definition pad : N := 61.

Fixpoint encode (bs : list byte) : jsstring :=
  match bs with
  | [] => []
  | [a] =>
      let a := Byte.to_N a in
      [alphabet (N.shiftr a 2); alphabet (N.shiftl (N.land a 3) 4); pad; pad]
  | [a; b] =>
      let a := Byte.to_N a in
      let b := Byte.to_N b in
      [alphabet (N.shiftr a 2);
       alphabet (N.lor (N.shiftl (N.land a 3) 4) (N.shiftr b 4));
       alphabet (N.shiftl (N.land b 15) 2); pad]
  | a :: b :: c :: rest =>
      let a := Byte.to_N a in
      let b := Byte.to_N b in
      let c := Byte.to_N c in
      alphabet (N.shiftr a 2)
      :: alphabet (N.lor (N.shiftl (N.land a 3) 4) (N.shiftr b 4))
      :: alphabet (N.lor (N.shiftl (N.land b 15) 2) (N.shiftr c 6))
      :: alphabet (N.land c 63)
      :: encode rest
  end.

End Base64.

(** ** Files, blobs and errors *)

(** A thrown value: an [Error] object, whose [message] may be missing. *)
Record Error := { message : option jsstring }.

Definition mkError (m : string) : Error := {| message := Some (lit m) |}.

(** The outcome of a promise (or of a call that may throw). *)
Inductive Settled (A : Type) :=
| Fulfilled (a : A)
| Rejected (e : Error).
Arguments Fulfilled {A} a.
Arguments Rejected {A} e.

Record Blob := { blob_type : jsstring; blob_bytes : list byte }.

Record File := { name : jsstring; type : jsstring; bytes : list byte }.

Definition blob_of_file (f : File) : Blob :=
  {| blob_type := type f; blob_bytes := bytes f |}.

(** [reader.result] after a successful [readAsDataURL(file)]. *)
Definition readAsDataURL (f : File) : jsstring :=
  lit "data:" ++ type f ++ lit ";base64," ++ Base64.encode (bytes f).

(** ** The remote service's data *)

Record Video := { uri : option jsstring }.
Record GeneratedVideo := { video : option Video }.
Record Response := { generatedVideos : option (list GeneratedVideo) }.

(** A job handle as [generateVideos] and [getVideosOperation] return it; a
    missing [done] is [false]. *)
Record Operation := { done : bool; response : option Response }.

Inductive AspectRatio := Ratio16x9 | Ratio9x16.
Inductive Resolution := Res720p | Res1080p.

Record ImagePart := { imageBytes : jsstring; mimeType : jsstring }.

Record Config := {
  numberOfVideos : N;
  config_resolution : Resolution;
  config_aspectRatio : AspectRatio
}.

Record Payload := {
  model : jsstring;
  payload_prompt : jsstring;
  config : Config;
  image : option ImagePart
}.

(** What [fetch] resolves to: the fields the handler reads, and the outcome
    of [videoResponse.blob()]. *)
Record FetchResponse := {
  ok : bool;
  statusText : jsstring;
  blob : Settled Blob
}.

(** ** The component's state (the [useState] cells of [App]) *)

Record ReferenceImage := {
  file : option File;
  previewUrl : option jsstring;
  base64 : option jsstring
}.

Record State := {
  hasApiKey : bool;
  prompt : jsstring;
  referenceImage : ReferenceImage;
  aspectRatio : AspectRatio;
  resolution : Resolution;
  isLoading : bool;
  loadingMessage : jsstring;
  generatedVideoUrl : option jsstring;
  error : option jsstring
}.

Definition LOADING_MESSAGES : list jsstring :=
  [ lit "Summoning digital muses...";
    lit "Warming up the pixels...";
    lit "Choreographing the frames...";
    lit "This might take a few minutes. Great art needs patience!";
    lit "Rendering cinematic magic...";
    lit "Almost there, polishing the final cut...";
    lit "Consulting with the AI director..." ].

Definition noImage : ReferenceImage :=
  {| file := None; previewUrl := None; base64 := None |}.

Definition initialState : State :=
  {| hasApiKey := false;
     prompt := lit "A neon hologram of a cat driving a sports car at top speed on a rainy night in a futuristic city";
     referenceImage := noImage;
     aspectRatio := Ratio16x9;
     resolution := Res1080p;
     isLoading := false;
     loadingMessage := nth 0 LOADING_MESSAGES [];
     generatedVideoUrl := None;
     error := None |}.

(** ** Calls a handler makes, in order *)

Inductive Event :=
(* state setters; the last three are called by the form controls only *)
| SetHasApiKey (b : bool)
| SetReferenceImage (r : ReferenceImage)
| SetIsLoading (b : bool)
| SetLoadingMessage (m : jsstring)
| SetGeneratedVideoUrl (u : option jsstring)
| SetError (e : option jsstring)
| SetPrompt (p : jsstring)
| SetAspectRatio (a : AspectRatio)
| SetResolution (r : Resolution)
(* the hosting environment *)
| HasSelectedApiKey
| OpenSelectKey
| CreateObjectURL (b : Blob)
| RevokeObjectURL (u : jsstring)
| ReadAsDataURL (f : File)
| SetTimeout (ms : N)
| ConsoleError (e : Error)
(* the remote service *)
| NewGoogleGenAI (apiKey : option jsstring)
| GenerateVideos (p : Payload)
| GetVideosOperation (o : Operation)
| Fetch (url : jsstring)
| ReadBlob.

(** The state after a setter call. *)
Definition apply_event (st : State) (ev : Event) : State :=
  match ev with
  | SetHasApiKey b =>
      {| hasApiKey := b; prompt := prompt st;
         referenceImage := referenceImage st; aspectRatio := aspectRatio st;
         resolution := resolution st; isLoading := isLoading st;
         loadingMessage := loadingMessage st;
         generatedVideoUrl := generatedVideoUrl st; error := error st |}
  | SetReferenceImage r =>
      {| hasApiKey := hasApiKey st; prompt := prompt st;
         referenceImage := r; aspectRatio := aspectRatio st;
         resolution := resolution st; isLoading := isLoading st;
         loadingMessage := loadingMessage st;
         generatedVideoUrl := generatedVideoUrl st; error := error st |}
  | SetIsLoading b =>
      {| hasApiKey := hasApiKey st; prompt := prompt st;
         referenceImage := referenceImage st; aspectRatio := aspectRatio st;
         resolution := resolution st; isLoading := b;
         loadingMessage := loadingMessage st;
         generatedVideoUrl := generatedVideoUrl st; error := error st |}
  | SetLoadingMessage m =>
      {| hasApiKey := hasApiKey st; prompt := prompt st;
         referenceImage := referenceImage st; aspectRatio := aspectRatio st;
         resolution := resolution st; isLoading := isLoading st;
         loadingMessage := m;
         generatedVideoUrl := generatedVideoUrl st; error := error st |}
  | SetGeneratedVideoUrl u =>
      {| hasApiKey := hasApiKey st; prompt := prompt st;
         referenceImage := referenceImage st; aspectRatio := aspectRatio st;
         resolution := resolution st; isLoading := isLoading st;
         loadingMessage := loadingMessage st;
         generatedVideoUrl := u; error := error st |}
  | SetError e =>
      {| hasApiKey := hasApiKey st; prompt := prompt st;
         referenceImage := referenceImage st; aspectRatio := aspectRatio st;
         resolution := resolution st; isLoading := isLoading st;
         loadingMessage := loadingMessage st;
         generatedVideoUrl := generatedVideoUrl st; error := e |}
  | SetPrompt p =>
      {| hasApiKey := hasApiKey st; prompt := p;
         referenceImage := referenceImage st; aspectRatio := aspectRatio st;
         resolution := resolution st; isLoading := isLoading st;
         loadingMessage := loadingMessage st;
         generatedVideoUrl := generatedVideoUrl st; error := error st |}
  | SetAspectRatio a =>
      {| hasApiKey := hasApiKey st; prompt := prompt st;
         referenceImage := referenceImage st; aspectRatio := a;
         resolution := resolution st; isLoading := isLoading st;
         loadingMessage := loadingMessage st;
         generatedVideoUrl := generatedVideoUrl st; error := error st |}
  | SetResolution r =>
      {| hasApiKey := hasApiKey st; prompt := prompt st;
         referenceImage := referenceImage st; aspectRatio := aspectRatio st;
         resolution := r; isLoading := isLoading st;
         loadingMessage := loadingMessage st;
         generatedVideoUrl := generatedVideoUrl st; error := error st |}
  | _ => st
  end.

Definition run_state (st : State) (tr : list Event) : State :=
  fold_left apply_event tr st.

(** Calls made through the service's client library or the network. *)
Definition is_request (ev : Event) : bool :=
  match ev with
  | NewGoogleGenAI _ | GenerateVideos _ | GetVideosOperation _
  | Fetch _ | ReadBlob => true
  | _ => false
  end.

Definition is_fetch (ev : Event) : bool :=
  match ev with Fetch _ => true | _ => false end.

Definition is_submission (ev : Event) : bool :=
  match ev with GenerateVideos _ => true | _ => false end.

Definition is_credential_query (ev : Event) : bool :=
  match ev with HasSelectedApiKey => true | _ => false end.

Definition is_createObjectURL (ev : Event) : bool :=
  match ev with CreateObjectURL _ => true | _ => false end.

(** The non-null messages passed to [setError], in order. *)
Fixpoint surfaced (tr : list Event) : list jsstring :=
  match tr with
  | [] => []
  | SetError (Some m) :: tr' => m :: surfaced tr'
  | _ :: tr' => surfaced tr'
  end.

(** ** Handler computations *)

Inductive Completion (A : Type) :=
| Normal (a : A)
| Throw (e : Error)
| Waiting.
Arguments Normal {A} a.
Arguments Throw {A} e.
Arguments Waiting {A}.

Definition M (A : Type) : Type := (list Event * Completion A)%type.

Definition ret {A} (a : A) : M A := ([], Normal a).
Definition throw {A} (e : Error) : M A := ([], Throw e).
Definition emit (ev : Event) : M unit := ([ev], Normal tt).

Definition bind {A B} (m : M A) (k : A -> M B) : M B :=
  match m with
  | (tr, Normal a) => let (tr', c) := k a in (tr ++ tr', c)
  | (tr, Throw e) => (tr, Throw e)
  | (tr, Waiting) => (tr, Waiting)
  end.

(** [await p]: the value of a fulfilled promise, a throw for a rejected one. *)
Definition await {A} (p : Settled A) : M A :=
  match p with
  | Fulfilled a => ret a
  | Rejected e => throw e
  end.

(** [try body catch (e) handler] *)
Definition tryCatch {A} (body : M A) (handler : Error -> M A) : M A :=
  match body with
  | (tr, Throw e) => let (tr', c) := handler e in (tr ++ tr', c)
  | other => other
  end.

(** [try body catch (e) handler finally final]: [final] runs once the
    body or the handler has completed, and never while they still wait. *)
Definition tryCatchFinally {A} (body : M A) (handler : Error -> M A)
    (final : M unit) : M A :=
  match tryCatch body handler with
  | (tr, Waiting) => (tr, Waiting)
  | (tr, c) =>
      match final with
      | (tr', Normal _) => (tr ++ tr', c)
      | (tr', Throw e) => (tr ++ tr', Throw e)
      | (tr', Waiting) => (tr ++ tr', Waiting)
      end
  end.

Declare Scope handler_scope.
Delimit Scope handler_scope with handler.
Notation "x <- m ;; k" := (bind m (fun x => k))
  (at level 61, m at next level, right associativity) : handler_scope.
Notation "m ;; k" := (bind m (fun _ => k))
  (at level 61, right associativity) : handler_scope.
Open Scope handler_scope.

Definition events {A} (m : M A) : list Event := fst m.
Definition completion {A} (m : M A) : Completion A := snd m.

(** The state once the calls of [m] have been made from [st]. *)
Definition state_after {A} (st : State) (m : M A) : State :=
  run_state st (events m).

(** ** The hosting environment and the remote service *)

Record Env := {
  (* process.env.API_KEY *)
  API_KEY : option jsstring;
  (* whether window.aistudio is there, and what its two calls settle to *)
  aistudio : bool;
  hasSelectedApiKey : Settled bool;
  openSelectKey : Settled unit;
  (* FileReader: the error event of a read that fails *)
  fileReaderError : File -> option Error;
  (* the unique part of the blob: URL that URL.createObjectURL makes *)
  objectId : Blob -> jsstring;
  (* new GoogleGenAI({apiKey}) *)
  newGoogleGenAI : option jsstring -> Settled unit;
  (* ai.models.generateVideos(payload) *)
  generateVideos : Payload -> Settled Operation;
  (* ai.operations.getVideosOperation({operation}); the first argument
     counts the polls made before this one *)
  getVideosOperation : nat -> Operation -> Settled Operation;
  (* fetch(url) *)
  fetch : jsstring -> Settled FetchResponse
}.

Definition TypeError : Error := mkError "Cannot read properties of undefined".

Section Handlers.

Variable env : Env.

Definition createObjectURL (b : Blob) : M jsstring :=
  emit (CreateObjectURL b) ;;
  ret (lit "blob:" ++ objectId env b).

(** [fileToBase64], lines 6-19.  [reader.result] is a string after
    [readAsDataURL], so [onload] always resolves; [split(',')[1]] is
    [undefined] when the result has no comma. *)
Definition fileToBase64 (f : File) : M (option jsstring) :=
  emit (ReadAsDataURL f) ;;
  match fileReaderError env f with
  | Some e => throw e
  | None => ret (nth_error (split comma (readAsDataURL f)) 1)
  end.

(** [checkApiKey], lines 54-65. *)
Definition checkApiKey : M unit :=
  tryCatch
    (selected <- (if aistudio env
                  then emit HasSelectedApiKey ;; await (hasSelectedApiKey env)
                  else ret false) ;;
     if selected then emit (SetHasApiKey true) else emit (SetHasApiKey false))
    (fun e => emit (ConsoleError e) ;; emit (SetHasApiKey false)).

(** The effect that runs once, when the component mounts (lines 67-69). *)
Definition mount : M unit := checkApiKey.

(** [handleSelectKey], lines 92-101. *)
Definition handleSelectKey : M unit :=
  tryCatch
    (emit OpenSelectKey ;;
     await (if aistudio env then openSelectKey env else Rejected TypeError) ;;
     emit (SetHasApiKey true))
    (fun e =>
       emit (ConsoleError e) ;;
       emit (SetError (Some (lit "Could not open the API key selection dialog. Please try again.")))).

(** [if (referenceImage.previewUrl) URL.revokeObjectURL(...)], as both
    [handleImageChange] and [removeImage] start. *)
Definition revokePreview (st : State) : M unit :=
  match previewUrl (referenceImage st) with
  | Some u => if truthy u then emit (RevokeObjectURL u) else ret tt
  | None => ret tt
  end.

(** [handleImageChange], lines 103-113; [picked] is [e.target.files?.[0]]. *)
Definition handleImageChange (st : State) (picked : option File) : M unit :=
  match picked with
  | Some f =>
      revokePreview st ;;
      url <- createObjectURL (blob_of_file f) ;;
      b64 <- fileToBase64 f ;;
      emit (SetReferenceImage
              {| file := Some f; previewUrl := Some url; base64 := b64 |})
  | None => ret tt
  end.

(** [removeImage], lines 115-120. *)
Definition removeImage (st : State) : M unit :=
  revokePreview st ;;
  emit (SetReferenceImage noImage).

(** The payload built at lines 133-148. *)
Definition buildPayload (st : State) : Payload :=
  let payload :=
    {| model := lit "veo-3.1-fast-generate-preview";
       payload_prompt := prompt st;
       config := {| numberOfVideos := 1;
                    config_resolution := resolution st;
                    config_aspectRatio := aspectRatio st |};
       image := None |} in
  match base64 (referenceImage st), file (referenceImage st) with
  | Some b64, Some f =>
      if truthy b64
      then {| model := model payload;
              payload_prompt := payload_prompt payload;
              config := config payload;
              image := Some {| imageBytes := b64; mimeType := type f |} |}
      else payload
  | _, _ => payload
  end.

(** The loop of lines 152-155, run for at most [fuel] iterations; [i] counts
    the polls already made. *)
Fixpoint pollLoop (fuel : nat) (i : nat) (operation : Operation)
  : M Operation :=
  if done operation then ret operation
  else
    match fuel with
    | O => ([], Waiting)
    | S fuel' =>
        emit (SetTimeout 10000) ;;
        emit (GetVideosOperation operation) ;;
        operation' <- await (getVideosOperation env i operation) ;;
        pollLoop fuel' (S i) operation'
    end.

(** [operation.response?.generatedVideos?.[0]?.video?.uri], line 157. *)
Definition downloadLink (operation : Operation) : option jsstring :=
  match response operation with
  | Some r =>
      match generatedVideos r with
      | Some (g :: _) =>
          match video g with
          | Some v => uri v
          | None => None
          end
      | _ => None
      end
  | None => None
  end.

Definition NO_DOWNLOAD_LINK : jsstring :=
  lit "Video generation succeeded but no download link was found.".

Definition FETCH_FAILED : jsstring := lit "Failed to fetch video data: ".

Definition ENTITY_NOT_FOUND : jsstring := lit "Requested entity was not found.".

Definition KEY_INVALID : jsstring :=
  lit "Your API key is invalid or not found. Please select a valid key and try again.".

Definition UNKNOWN_ERROR : jsstring := lit "An unknown error occurred.".

(** The body of the [try] block, lines 131-170. *)
Definition attempt (fuel : nat) (st : State) : M unit :=
  emit (NewGoogleGenAI (API_KEY env)) ;;
  await (newGoogleGenAI env (API_KEY env)) ;;
  let payload := buildPayload st in
  emit (GenerateVideos payload) ;;
  operation <- await (generateVideos env payload) ;;
  operation <- pollLoop fuel 0 operation ;;
  let link := downloadLink operation in
  if negb (truthy_opt link)
  then throw {| message := Some NO_DOWNLOAD_LINK |}
  else
    let url := interpolate link ++ lit "&key=" ++ interpolate (API_KEY env) in
    emit (Fetch url) ;;
    videoResponse <- await (fetch env url) ;;
    if negb (ok videoResponse)
    then throw {| message := Some (FETCH_FAILED ++ statusText videoResponse) |}
    else
      emit ReadBlob ;;
      videoBlob <- await (blob videoResponse) ;;
      videoUrl <- createObjectURL videoBlob ;;
      emit (SetGeneratedVideoUrl (Some videoUrl)).

(** The message the [catch] block computes (lines 174-176). *)
Definition rawMessage (err : Error) : jsstring :=
  or_else (message err) UNKNOWN_ERROR.

Definition isKeyError (err : Error) : bool :=
  includes (rawMessage err) ENTITY_NOT_FOUND.

(** The [catch] block, lines 172-179. *)
Definition onError (err : Error) : M unit :=
  emit (ConsoleError err) ;;
  let errorMessage := rawMessage err in
  errorMessage <- (if includes errorMessage ENTITY_NOT_FOUND
                   then emit (SetHasApiKey false) ;; ret KEY_INVALID
                   else ret errorMessage) ;;
  emit (SetError (Some errorMessage)).

(** The guard of line 123: [!prompt.trim() || isLoading]. *)
Definition rejected (st : State) : bool :=
  negb (truthy (trim (prompt st))) || isLoading st.

(** The four setter calls of lines 125-128. *)
Definition prologue : list Event :=
  [ SetIsLoading true; SetError None; SetGeneratedVideoUrl None;
    SetLoadingMessage (nth 0 LOADING_MESSAGES []) ].

(** [handleGenerateVideo], lines 122-183. *)
Definition handleGenerateVideo (fuel : nat) (st : State) : M unit :=
  if rejected st then ret tt
  else
    emit (SetIsLoading true) ;;
    emit (SetError None) ;;
    emit (SetGeneratedVideoUrl None) ;;
    emit (SetLoadingMessage (nth 0 LOADING_MESSAGES [])) ;;
    tryCatchFinally
      (attempt fuel st)
      onError
      (emit (SetIsLoading false)).

End Handlers.

(** ** Concrete environments and inputs *)

Module Scenario.

Definition png10 : File :=
  {| name := lit "ref.png"; type := lit "image/png";
     bytes := [x89; x50; x4e; x47; x0d; x0a; x1a; x0a; x00; x01] |}.

Definition emptyPng : File :=
  {| name := lit "empty.png"; type := lit "image/png"; bytes := [] |}.

Definition mp4 : Blob :=
  {| blob_type := lit "video/mp4"; blob_bytes := [x00; x00; x00; x18] |}.

Definition running : Operation := {| done := false; response := None |}.

Definition finished (u : option jsstring) : Operation :=
  {| done := true;
     response :=
       Some {| generatedVideos := Some [ {| video := Some {| uri := u |} |} ] |} |}.

Definition videoUri : jsstring := lit "https://example.test/v1/files/abc:download?alt=media".

Definition okResponse : FetchResponse :=
  {| ok := true; statusText := lit "OK"; blob := Fulfilled mp4 |}.

Definition failedResponse (reason : jsstring) : FetchResponse :=
  {| ok := false; statusText := reason; blob := Fulfilled mp4 |}.

(** A service whose job reports [final] once [polls] polls have been made,
    and whose media fetch settles to [media]. *)
Definition service (polls : nat) (final : Operation)
    (media : Settled FetchResponse) : Env :=
  {| API_KEY := Some (lit "KEY");
     aistudio := true;
     hasSelectedApiKey := Fulfilled true;
     openSelectKey := Fulfilled tt;
     fileReaderError := fun _ => None;
     objectId := fun _ => lit "https://app.test/0001";
     newGoogleGenAI := fun _ => Fulfilled tt;
     generateVideos :=
       fun _ => Fulfilled (if Nat.eqb polls 0 then final else running);
     getVideosOperation :=
       fun i _ => Fulfilled (if Nat.eqb (S i) polls then final else running);
     fetch := fun _ => media |}.

(** A service whose submission is rejected with [e]. *)
Definition refusing (e : Error) : Env :=
  {| API_KEY := Some (lit "KEY");
     aistudio := true;
     hasSelectedApiKey := Fulfilled true;
     openSelectKey := Fulfilled tt;
     fileReaderError := fun _ => None;
     objectId := fun _ => lit "https://app.test/0001";
     newGoogleGenAI := fun _ => Fulfilled tt;
     generateVideos := fun _ => Rejected e;
     getVideosOperation := fun _ _ => Rejected e;
     fetch := fun _ => Rejected e |}.

(** Errors and replies used as examples. *)
Definition emptyError : Error := {| message := Some [] |}.

Definition quotaError : Error := mkError "Quota exceeded for this project.".

Definition entityError : Error :=
  mkError "404 NOT_FOUND: Requested entity was not found.".

(** The state of a mounted component whose credential check succeeded. *)
Definition ready : State := apply_event initialState (SetHasApiKey true).

(** The same with a job in flight. *)
Definition busy : State := apply_event ready (SetIsLoading true).

(** The same with a prompt of a space, a tab and a line feed. *)
Definition blank : State :=
  {| hasApiKey := true;
     prompt := [32; 9; 10]%N;
     referenceImage := noImage;
     aspectRatio := Ratio16x9;
     resolution := Res1080p;
     isLoading := false;
     loadingMessage := nth 0 LOADING_MESSAGES [];
     generatedVideoUrl := None;
     error := None |}.

End Scenario.

(** ** Vocabulary of the properties *)

(** The calls one iteration of the poll loop makes: the ten-second timer
    and the status query. *)
Definition is_poll_event (ev : Event) : bool :=
  match ev with
  | SetTimeout ms => N.eqb ms 10000
  | GetVideosOperation _ => true
  | _ => false
  end.

Definition is_setter (ev : Event) : bool :=
  match ev with
  | SetHasApiKey _ | SetReferenceImage _ | SetIsLoading _
  | SetLoadingMessage _ | SetGeneratedVideoUrl _ | SetError _
  | SetPrompt _ | SetAspectRatio _ | SetResolution _ => true
  | _ => false
  end.

Definition quiet (tr : list Event) : bool :=
  forallb (fun ev => negb (is_setter ev)) tr.

(** [always P st tr]: [P] holds of [st] and of the state after every call
    of [tr], made in order from [st]. *)
Fixpoint always (P : State -> Prop) (st : State) (tr : list Event) : Prop :=
  P st /\
  match tr with
  | [] => True
  | ev :: tr' => always P (apply_event st ev) tr'
  end.

(** Not both an error message and a video handle. *)
Definition exclusive (st : State) : Prop :=
  error st = None \/ generatedVideoUrl st = None.

(** The calls of [n] iterations of the poll loop, given the operation each
    iteration starts with. *)
Fixpoint poll_trace (os : list Operation) : list Event :=
  match os with
  | [] => []
  | o :: os' => SetTimeout 10000 :: GetVideosOperation o :: poll_trace os'
  end.

(** [Polled env i o os o']: from the operation [o], with [i] polls made so
    far, the loop runs one iteration for each operation of [os] (none of
    them done, each answered by the next) and then holds [o']. *)
Inductive Polled (env : Env) : nat -> Operation -> list Operation -> Operation -> Prop :=
| Polled_stop (i : nat) (o : Operation) : Polled env i o [] o
| Polled_again (i : nat) (o o' o'' : Operation) (os : list Operation) :
    done o = false ->
    getVideosOperation env i o = Fulfilled o' ->
    Polled env (S i) o' os o'' ->
    Polled env i o (o :: os) o''.

(** How the [try] block of [handleGenerateVideo] can end, stage by stage. *)
Inductive Outcome (env : Env) (fuel : nat) (st : State) : M unit -> Prop :=
| ConstructFails (e : Error) :
    newGoogleGenAI env (API_KEY env) = Rejected e ->
    Outcome env fuel st ([NewGoogleGenAI (API_KEY env)], Throw e)
| SubmitFails (e : Error) :
    newGoogleGenAI env (API_KEY env) = Fulfilled tt ->
    generateVideos env (buildPayload st) = Rejected e ->
    Outcome env fuel st
      ([NewGoogleGenAI (API_KEY env); GenerateVideos (buildPayload st)], Throw e)
| PollFails (o : Operation) (ptr : list Event) (e : Error) :
    newGoogleGenAI env (API_KEY env) = Fulfilled tt ->
    generateVideos env (buildPayload st) = Fulfilled o ->
    pollLoop env fuel 0 o = (ptr, Throw e) ->
    Outcome env fuel st
      (NewGoogleGenAI (API_KEY env) :: GenerateVideos (buildPayload st) :: ptr,
       Throw e)
| PollWaits (o : Operation) (ptr : list Event) :
    newGoogleGenAI env (API_KEY env) = Fulfilled tt ->
    generateVideos env (buildPayload st) = Fulfilled o ->
    pollLoop env fuel 0 o = (ptr, Waiting) ->
    Outcome env fuel st
      (NewGoogleGenAI (API_KEY env) :: GenerateVideos (buildPayload st) :: ptr,
       Waiting)
| NoLink (o o' : Operation) (ptr : list Event) :
    newGoogleGenAI env (API_KEY env) = Fulfilled tt ->
    generateVideos env (buildPayload st) = Fulfilled o ->
    pollLoop env fuel 0 o = (ptr, Normal o') ->
    truthy_opt (downloadLink o') = false ->
    Outcome env fuel st
      (NewGoogleGenAI (API_KEY env) :: GenerateVideos (buildPayload st) :: ptr,
       Throw {| message := Some NO_DOWNLOAD_LINK |})
| FetchFails (o o' : Operation) (ptr : list Event) (url : jsstring) (e : Error) :
    newGoogleGenAI env (API_KEY env) = Fulfilled tt ->
    generateVideos env (buildPayload st) = Fulfilled o ->
    pollLoop env fuel 0 o = (ptr, Normal o') ->
    truthy_opt (downloadLink o') = true ->
    url = interpolate (downloadLink o') ++ lit "&key=" ++ interpolate (API_KEY env) ->
    fetch env url = Rejected e ->
    Outcome env fuel st
      (NewGoogleGenAI (API_KEY env) :: GenerateVideos (buildPayload st)
         :: ptr ++ [Fetch url],
       Throw e)
| FetchNotOk (o o' : Operation) (ptr : list Event) (url : jsstring)
    (r : FetchResponse) :
    newGoogleGenAI env (API_KEY env) = Fulfilled tt ->
    generateVideos env (buildPayload st) = Fulfilled o ->
    pollLoop env fuel 0 o = (ptr, Normal o') ->
    truthy_opt (downloadLink o') = true ->
    url = interpolate (downloadLink o') ++ lit "&key=" ++ interpolate (API_KEY env) ->
    fetch env url = Fulfilled r ->
    ok r = false ->
    Outcome env fuel st
      (NewGoogleGenAI (API_KEY env) :: GenerateVideos (buildPayload st)
         :: ptr ++ [Fetch url],
       Throw {| message := Some (FETCH_FAILED ++ statusText r) |})
| BlobFails (o o' : Operation) (ptr : list Event) (url : jsstring)
    (r : FetchResponse) (e : Error) :
    newGoogleGenAI env (API_KEY env) = Fulfilled tt ->
    generateVideos env (buildPayload st) = Fulfilled o ->
    pollLoop env fuel 0 o = (ptr, Normal o') ->
    truthy_opt (downloadLink o') = true ->
    url = interpolate (downloadLink o') ++ lit "&key=" ++ interpolate (API_KEY env) ->
    fetch env url = Fulfilled r ->
    ok r = true ->
    blob r = Rejected e ->
    Outcome env fuel st
      (NewGoogleGenAI (API_KEY env) :: GenerateVideos (buildPayload st)
         :: ptr ++ [Fetch url; ReadBlob],
       Throw e)
| Succeeds (o o' : Operation) (ptr : list Event) (url : jsstring)
    (r : FetchResponse) (b : Blob) :
    newGoogleGenAI env (API_KEY env) = Fulfilled tt ->
    generateVideos env (buildPayload st) = Fulfilled o ->
    pollLoop env fuel 0 o = (ptr, Normal o') ->
    truthy_opt (downloadLink o') = true ->
    url = interpolate (downloadLink o') ++ lit "&key=" ++ interpolate (API_KEY env) ->
    fetch env url = Fulfilled r ->
    ok r = true ->
    blob r = Fulfilled b ->
    Outcome env fuel st
      (NewGoogleGenAI (API_KEY env) :: GenerateVideos (buildPayload st)
         :: ptr ++ [Fetch url; ReadBlob; CreateObjectURL b;
                    SetGeneratedVideoUrl (Some (lit "blob:" ++ objectId env b))],
       Normal tt).

(** The calls of the [catch] block and of [finally]. *)
Definition epilogue (e : Error) : list Event :=
  ConsoleError e
  :: (if isKeyError e
      then [SetHasApiKey false; SetError (Some KEY_INVALID)]
      else [SetError (Some (rawMessage e))])
  ++ [SetIsLoading false].

(** The message an error ends up as on the page. *)
Definition surface (e : Error) : jsstring :=
  if isKeyError e then KEY_INVALID else rawMessage e.

(** The calls the [try] block can make. *)
Definition is_attempt_event (ev : Event) : bool :=
  match ev with
  | NewGoogleGenAI _ | GenerateVideos _ | GetVideosOperation _
  | Fetch _ | ReadBlob | CreateObjectURL _
  | SetGeneratedVideoUrl (Some _) => true
  | SetTimeout ms => N.eqb ms 10000
  | _ => false
  end.

(** The calls the [catch] block can make. *)
Definition is_catch_event (ev : Event) : bool :=
  match ev with
  | ConsoleError _ | SetHasApiKey false | SetError (Some _) => true
  | _ => false
  end.

Definition keeps_loading (ev : Event) : bool :=
  match ev with SetIsLoading _ => false | _ => true end.

Definition keeps_video (ev : Event) : bool :=
  match ev with SetGeneratedVideoUrl _ => false | _ => true end.

Definition keeps_error (ev : Event) : bool :=
  match ev with SetError _ => false | _ => true end.

(** The three calls after which a new attempt has cleared the previous
    result. *)
Definition clearing : list Event :=
  [SetIsLoading true; SetError None; SetGeneratedVideoUrl None].

(** The state a failed attempt leaves, given the error it ended with. *)
Definition failed_state (st : State) (e : Error) : State :=
  {| hasApiKey := if isKeyError e then false else hasApiKey st;
     prompt := prompt st;
     referenceImage := referenceImage st;
     aspectRatio := aspectRatio st;
     resolution := resolution st;
     isLoading := false;
     loadingMessage := nth 0 LOADING_MESSAGES [];
     generatedVideoUrl := None;
     error := Some (surface e) |}.

(** The state a successful attempt leaves, given the video's object URL. *)
Definition succeeded_state (st : State) (videoUrl : jsstring) : State :=
  {| hasApiKey := hasApiKey st;
     prompt := prompt st;
     referenceImage := referenceImage st;
     aspectRatio := aspectRatio st;
     resolution := resolution st;
     isLoading := false;
     loadingMessage := nth 0 LOADING_MESSAGES [];
     generatedVideoUrl := Some videoUrl;
     error := None |}.

(** Calls that only touch the page: the state setters and the console. *)
Definition is_bookkeeping (ev : Event) : bool :=
  match ev with
  | ConsoleError _ => true
  | _ => is_setter ev
  end.

Definition no_comma (s : jsstring) : bool :=
  forallb (fun c => negb (N.eqb c comma)) s.

Definition sets_loading (ev : Event) : bool := negb (keeps_loading ev).

(** ** What the component renders (lines 185-333)

    Only what depends on the state is kept: which panel is shown, what it
    shows, and which handlers can be reached from it. *)

(** The output panel, lines 263-294. *)
Inductive OutputPanel :=
| Processing (message : jsstring)
| ErrorPanel (message : jsstring)
| VideoPanel (src : jsstring)
| Placeholder.

(** The reference image control, lines 207-223: the preview with its remove
    button, or the file input. *)
Inductive ImageControl :=
| ImagePreview (src : jsstring)
| ImageUpload.

(** The generate button, lines 251-258. *)
Record GenerateButton := {
  disabled : bool;
  spinner : bool;
  label : jsstring
}.

Record MainContent := {
  promptValue : jsstring;
  imageControl : ImageControl;
  selectedAspectRatio : AspectRatio;
  selectedResolution : Resolution;
  generateButton : GenerateButton;
  output : OutputPanel
}.

(** The page, lines 318-330: the key prompt, or the main content. *)
Inductive Screen :=
| KeyRequired
| Main (c : MainContent).

Definition renderOutput (st : State) : OutputPanel :=
  if isLoading st then Processing (loadingMessage st)
  else if truthy_opt (error st) then ErrorPanel (interpolate (error st))
  else if truthy_opt (generatedVideoUrl st)
       then VideoPanel (interpolate (generatedVideoUrl st))
       else Placeholder.

Definition renderImageControl (st : State) : ImageControl :=
  if truthy_opt (previewUrl (referenceImage st))
  then ImagePreview (interpolate (previewUrl (referenceImage st)))
  else ImageUpload.

Definition renderGenerateButton (st : State) : GenerateButton :=
  {| disabled := isLoading st || negb (truthy (trim (prompt st)));
     spinner := isLoading st;
     label := if isLoading st then lit "Generating..." else lit "Generate Video" |}.

Definition mainContent (st : State) : MainContent :=
  {| promptValue := prompt st;
     imageControl := renderImageControl st;
     selectedAspectRatio := aspectRatio st;
     selectedResolution := resolution st;
     generateButton := renderGenerateButton st;
     output := renderOutput st |}.

Definition render (st : State) : Screen :=
  if negb (hasApiKey st) then KeyRequired else Main (mainContent st).

(** The handlers wired into the page. *)
Inductive Action :=
| ClickSelectKey        (* onClick={handleSelectKey}, line 324 *)
| ClickGenerate         (* onClick={handleGenerateVideo}, line 252 *)
| PickFile              (* onChange={handleImageChange}, line 221 *)
| ClickRemoveImage      (* onClick={removeImage}, line 210 *)
| EditPrompt            (* line 200 *)
| ChooseAspectRatio     (* line 232 *)
| ChooseResolution.     (* line 242 *)

(** Whether the screen holds an enabled control for the action. *)
Definition offered (s : Screen) (a : Action) : bool :=
  match s, a with
  | KeyRequired, ClickSelectKey => true
  | KeyRequired, _ => false
  | Main _, ClickSelectKey => false
  | Main c, ClickGenerate => negb (disabled (generateButton c))
  | Main c, PickFile =>
      match imageControl c with ImageUpload => true | ImagePreview _ => false end
  | Main c, ClickRemoveImage =>
      match imageControl c with ImagePreview _ => true | ImageUpload => false end
  | Main _, _ => true
  end.

Definition is_revoke (ev : Event) : bool :=
  match ev with RevokeObjectURL _ => true | _ => false end.

(** ** Object URLs alive *)

Fixpoint jsstring_eqb (a b : jsstring) : bool :=
  match a, b with
  | [], [] => true
  | x :: a', y :: b' => N.eqb x y && jsstring_eqb a' b'
  | _, _ => false
  end.

Fixpoint remove_one (u : jsstring) (urls : list jsstring) : list jsstring :=
  match urls with
  | [] => []
  | v :: urls' => if jsstring_eqb u v then urls' else v :: remove_one u urls'
  end.

(** The object URLs created and not yet revoked, once the calls of [tr]
    have been made, given those alive before. *)
Fixpoint live (env : Env) (urls : list jsstring) (tr : list Event)
  : list jsstring :=
  match tr with
  | [] => urls
  | CreateObjectURL b :: tr' => live env ((lit "blob:" ++ objectId env b) :: urls) tr'
  | RevokeObjectURL u :: tr' => live env (remove_one u urls) tr'
  | _ :: tr' => live env urls tr'
  end.

(** The object URL the state holds for the preview, if any. *)
Definition preview_urls (st : State) : list jsstring :=
  match previewUrl (referenceImage st) with
  | Some u => if truthy u then [u] else []
  | None => []
  end.

Definition touches_object_urls (ev : Event) : bool :=
  is_revoke ev || is_createObjectURL ev.

(** ** The loading message timer (the effect of lines 71-90)

    [window.setInterval] returns a fresh positive number, so an id held by
    [loadingIntervalRef] is always truthy.  An interval keeps the
    [messageIndex] variable of the effect run that set it. *)

Record Interval := {
  intervalId : positive;
  delay : N;
  messageIndex : nat
}.

Record Timers := {
  loadingIntervalRef : option positive;   (* loadingIntervalRef.current *)
  intervals : list Interval;              (* set and not cleared *)
  nextId : positive                       (* what setInterval returns next *)
}.

Definition setInterval (ms : N) (t : Timers) : positive * Timers :=
  (nextId t,
   {| loadingIntervalRef := loadingIntervalRef t;
      intervals := {| intervalId := nextId t; delay := ms; messageIndex := 0 |}
                   :: intervals t;
      nextId := Pos.succ (nextId t) |}).

Definition clearInterval (id : positive) (t : Timers) : Timers :=
  {| loadingIntervalRef := loadingIntervalRef t;
     intervals := filter (fun i => negb (Pos.eqb (intervalId i) id)) (intervals t);
     nextId := nextId t |}.

Definition setRef (r : option positive) (t : Timers) : Timers :=
  {| loadingIntervalRef := r; intervals := intervals t; nextId := nextId t |}.

(** The body of the effect, lines 72-83. *)
Definition loadingEffect (loading : bool) (t : Timers) : Timers :=
  if loading then
    let (id, t') := setInterval 4000 t in setRef (Some id) t'
  else
    match loadingIntervalRef t with
    | Some id => setRef None (clearInterval id t)
    | None => t
    end.

(** The function the effect returns, lines 85-89. *)
Definition loadingCleanup (t : Timers) : Timers :=
  match loadingIntervalRef t with
  | Some id => clearInterval id t
  | None => t
  end.

(** The interval's callback, lines 75-76, for the interval [id] when it is
    still set: the setter call it makes and the timers afterwards. *)
Definition fire (id : positive) (t : Timers) : list Event * Timers :=
  match find (fun i => Pos.eqb (intervalId i) id) (intervals t) with
  | Some i =>
      let messageIndex' :=
        (messageIndex i + 1) mod List.length LOADING_MESSAGES in
      ([SetLoadingMessage (nth messageIndex' LOADING_MESSAGES [])],
       {| loadingIntervalRef := loadingIntervalRef t;
          intervals :=
            map (fun j =>
                   if Pos.eqb (intervalId j) id
                   then {| intervalId := intervalId j; delay := delay j;
                           messageIndex := messageIndex' |}
                   else j)
                (intervals t);
          nextId := nextId t |})
  | None => ([], t)
  end.

(** The component as React drives the effect: it runs after the first
    render, runs again (after the cleanup of the previous run) when a
    render has another [isLoading], and its cleanup runs at unmount. *)
Record Mounted := {
  timers : Timers;
  dep : bool;          (* isLoading at the last run of the effect *)
  alive : bool
}.

Inductive Lifecycle :=
| Render (loading : bool)
| Elapse (id : positive)
| Unmount.

Definition mountTimers (first : positive) : Mounted :=
  {| timers := loadingEffect false
                 {| loadingIntervalRef := None; intervals := [];
                    nextId := first |};
     dep := false;
     alive := true |}.

Definition lifecycle (m : Mounted) (l : Lifecycle) : list Event * Mounted :=
  match l with
  | Render loading =>
      if alive m && negb (Bool.eqb loading (dep m))
      then ([], {| timers := loadingEffect loading (loadingCleanup (timers m));
                   dep := loading; alive := true |})
      else ([], m)
  | Elapse id =>
      let (evs, t) := fire id (timers m) in
      (evs, {| timers := t; dep := dep m; alive := alive m |})
  | Unmount =>
      if alive m
      then ([], {| timers := loadingCleanup (timers m);
                   dep := dep m; alive := false |})
      else ([], m)
  end.

Fixpoint lifecycles (m : Mounted) (ls : list Lifecycle)
  : list Event * Mounted :=
  match ls with
  | [] => ([], m)
  | l :: ls' =>
      let (evs, m') := lifecycle m l in
      let (evs', m'') := lifecycles m' ls' in
      (evs ++ evs', m'')
  end.

(** What holds of the timers whenever React has run the effect. *)
Definition timers_in_step (m : Mounted) : Prop :=
  match alive m, dep m with
  | true, true =>
      exists i,
        loadingIntervalRef (timers m) = Some (intervalId i) /\
        intervals (timers m) = [i] /\ delay i = 4000%N
  | true, false =>
      loadingIntervalRef (timers m) = None /\ intervals (timers m) = []
  | false, _ => intervals (timers m) = []
  end.

(** ** Base64 decoding (RFC 4648), to state what the encoder keeps *)

Module Base64Decode.

(** The sextet a character of the alphabet stands for. *)
Definition value (c : N) : option N :=
  if N.leb 65 c && N.leb c 90 then Some (c - 65)%N
  else if N.leb 97 c && N.leb c 122 then Some (c - 97 + 26)%N
  else if N.leb 48 c && N.leb c 57 then Some (c - 48 + 52)%N
  else if N.eqb c 43 then Some 62%N
  else if N.eqb c 47 then Some 63%N
  else None.

Definition byte1 (v1 v2 : N) : N := N.lor (N.shiftl v1 2) (N.shiftr v2 4).
Definition byte2 (v2 v3 : N) : N :=
  N.lor (N.shiftl (N.land v2 15) 4) (N.shiftr v3 2).
Definition byte3 (v3 v4 : N) : N := N.lor (N.shiftl (N.land v3 3) 6) v4.

Fixpoint decode (s : jsstring) : option (list byte) :=
  match s with
  | [] => Some []
  | c1 :: c2 :: c3 :: c4 :: rest =>
      match value c1, value c2 with
      | Some v1, Some v2 =>
          if N.eqb c4 Base64.pad then
            match rest with
            | [] =>
                if N.eqb c3 Base64.pad
                then match Byte.of_N (byte1 v1 v2) with
                     | Some x => Some [x]
                     | None => None
                     end
                else match value c3 with
                     | Some v3 =>
                         match Byte.of_N (byte1 v1 v2),
                               Byte.of_N (byte2 v2 v3) with
                         | Some x, Some y => Some [x; y]
                         | _, _ => None
                         end
                     | None => None
                     end
            | _ :: _ => None
            end
          else
            match value c3, value c4 with
            | Some v3, Some v4 =>
                match Byte.of_N (byte1 v1 v2), Byte.of_N (byte2 v2 v3),
                      Byte.of_N (byte3 v3 v4), decode rest with
                | Some x, Some y, Some z, Some l => Some (x :: y :: z :: l)
                | _, _, _, _ => None
                end
            | _, _ => None
            end
      | _, _ => None
      end
  | _ => None
  end.

End Base64Decode.

Definition range256 : list N := map N.of_nat (seq 0 256).

(** The number of separators in a string. *)
Definition count_sep (sep : N) (s : jsstring) : nat :=
  List.length (filter (N.eqb sep) s).

(** * Properties *)

(** Settles a statement about every event by cases on the event. *)
Ltac by_event :=
  let ev := fresh "ev" in
  intros ev; destruct ev; cbn; try congruence;
  repeat match goal with
         | x : option _ |- _ => destruct x; cbn; try congruence
         | x : bool |- _ => destruct x; cbn; try congruence
         end.

(** ** Strings *)

Lemma trimStart_blank (s : jsstring) :
  trimStart s = [] <-> forallb isWhiteSpace s = true.
Proof.
  induction s as [|c s IH]; cbn [trimStart forallb].
  - tauto.
  - destruct (isWhiteSpace c); cbn [andb].
    + exact IH.
    + split; discriminate.
Qed.

Lemma trimStart_head (s : jsstring) (c : N) (s' : jsstring) :
  trimStart s = c :: s' -> isWhiteSpace c = false.
Proof.
  induction s as [|d s IH]; cbn [trimStart]; [discriminate|].
  destruct (isWhiteSpace d) eqn:E; [exact IH|].
  intros H; injection H as -> _; exact E.
Qed.

Lemma trim_blank (s : jsstring) :
  trim s = [] <-> forallb isWhiteSpace s = true.
Proof.
  unfold trim, trimEnd. rewrite <- trimStart_blank. split.
  - intros H.
    assert (H1 : trimStart (rev (trimStart s)) = []).
    { rewrite <- (rev_involutive (trimStart (rev (trimStart s)))), H.
      reflexivity. }
    apply trimStart_blank in H1. rewrite forallb_forall in H1.
    destruct (trimStart s) as [|c s'] eqn:E; [reflexivity|].
    apply trimStart_head in E.
    rewrite (H1 c) in E; [discriminate|].
    apply in_rev. rewrite rev_involutive. left; reflexivity.
  - intros ->. reflexivity.
Qed.

Lemma includes_skip (n : N) (needle p s : jsstring) :
  forallb (fun c => negb (N.eqb n c)) p = true ->
  includes (p ++ s) (n :: needle) = includes s (n :: needle).
Proof.
  induction p as [|c p IH]; cbn [forallb app]; [reflexivity|].
  intros H. apply andb_prop in H as [Hc Hp].
  cbn [includes startsWith].
  destruct (N.eqb n c); [discriminate|].
  cbn [andb orb]. exact (IH Hp).
Qed.

Lemma split_aux_plain (sep : N) (s cur : jsstring) :
  forallb (fun c => negb (N.eqb c sep)) s = true ->
  split_aux sep cur s = [rev cur ++ s].
Proof.
  revert cur.
  induction s as [|c s IH]; intros cur H; cbn [split_aux].
  - rewrite app_nil_r. reflexivity.
  - cbn [forallb] in H. apply andb_prop in H as [Hc Hs].
    destruct (N.eqb c sep); [discriminate|].
    rewrite (IH _ Hs). cbn [rev]. rewrite <- app_assoc. reflexivity.
Qed.

Lemma split_aux_at (sep : N) (a rest cur : jsstring) :
  forallb (fun c => negb (N.eqb c sep)) a = true ->
  split_aux sep cur (a ++ sep :: rest) = (rev cur ++ a) :: split_aux sep [] rest.
Proof.
  revert cur.
  induction a as [|c a IH]; intros cur H; cbn [split_aux app].
  - rewrite N.eqb_refl, app_nil_r. reflexivity.
  - cbn [forallb] in H. apply andb_prop in H as [Hc Ha].
    destruct (N.eqb c sep); [discriminate|].
    rewrite (IH _ Ha). cbn [rev]. rewrite <- app_assoc. reflexivity.
Qed.

(** ** Base64 *)

Lemma list_ind3 (A : Type) (P : list A -> Prop) :
  P [] -> (forall a, P [a]) -> (forall a b, P [a; b]) ->
  (forall a b c l, P l -> P (a :: b :: c :: l)) ->
  forall l, P l.
Proof.
  intros H0 H1 H2 H3 l.
  assert (H : P l /\ (forall a, P (a :: l)) /\ (forall a b, P (a :: b :: l))).
  { induction l as [|x l (IH0 & IH1 & IH2)].
    - auto.
    - repeat split; auto. }
  exact (proj1 H).
Qed.

Lemma alphabet_not_comma (n : N) : N.eqb (Base64.alphabet n) comma = false.
Proof.
  apply N.eqb_neq. unfold Base64.alphabet, comma.
  destruct (N.ltb_spec n 26); [lia|].
  destruct (N.ltb_spec n 52); [lia|].
  destruct (N.ltb_spec n 62); [lia|].
  destruct (N.eqb n 62); lia.
Qed.

Lemma encode_no_comma (bs : list byte) :
  forallb (fun c => negb (N.eqb c comma)) (Base64.encode bs) = true.
Proof.
  induction bs as [|a|a b|a b c l IH] using list_ind3;
    cbn [Base64.encode forallb]; rewrite ?alphabet_not_comma;
    try reflexivity.
  cbn [negb andb]. exact IH.
Qed.

Lemma encode_truthy (bs : list byte) :
  truthy (Base64.encode bs) = match bs with [] => false | _ :: _ => true end.
Proof.
  destruct bs as [|a [|b [|c l]]]; reflexivity.
Qed.

Lemma readAsDataURL_split (f : File) :
  forallb (fun c => negb (N.eqb c comma)) (type f) = true ->
  nth_error (split comma (readAsDataURL f)) 1 = Some (Base64.encode (bytes f)).
Proof.
  intros Hty. unfold readAsDataURL, split.
  change (lit ";base64,") with (lit ";base64" ++ [comma]).
  replace (lit "data:" ++ type f ++ (lit ";base64" ++ [comma])
           ++ Base64.encode (bytes f))
    with ((lit "data:" ++ type f ++ lit ";base64")
          ++ comma :: Base64.encode (bytes f)).
  - rewrite split_aux_at.
    + rewrite split_aux_plain by apply encode_no_comma. reflexivity.
    + rewrite !forallb_app, Hty. reflexivity.
  - rewrite <- !app_assoc. reflexivity.
Qed.

(** ** The handler monad *)

Lemma bind_ret (A B : Type) (a : A) (k : A -> M B) : bind (ret a) k = k a.
Proof. unfold bind, ret. destruct (k a). reflexivity. Qed.

Lemma bind_throw (A B : Type) (e : Error) (k : A -> M B) :
  bind (throw e) k = throw e.
Proof. reflexivity. Qed.

Lemma bind_emit (B : Type) (ev : Event) (k : unit -> M B) :
  bind (emit ev) k = (ev :: events (k tt), completion (k tt)).
Proof. unfold bind, emit. destruct (k tt). reflexivity. Qed.

Lemma bind_fulfilled (A B : Type) (a : A) (k : A -> M B) :
  bind (await (Fulfilled a)) k = k a.
Proof. apply bind_ret. Qed.

Lemma bind_rejected (A B : Type) (e : Error) (k : A -> M B) :
  bind (await (Rejected e)) k = throw e.
Proof. reflexivity. Qed.

Lemma bind_cases (A B : Type) (m : M A) (k : A -> M B) :
  bind m k =
  match completion m with
  | Normal a => (events m ++ events (k a), completion (k a))
  | Throw e => (events m, Throw e)
  | Waiting => (events m, Waiting)
  end.
Proof.
  destruct m as [tr [a|e|]]; cbn; [destruct (k a)|..]; reflexivity.
Qed.

Lemma run_state_app (st : State) (p q : list Event) :
  run_state st (p ++ q) = run_state (run_state st p) q.
Proof. apply fold_left_app. Qed.

(** ** The poll loop *)

Lemma pollLoop_events (env : Env) (fuel i : nat) (operation : Operation) :
  forallb is_poll_event (events (pollLoop env fuel i operation)) = true.
Proof.
  revert i operation.
  induction fuel as [|fuel IH]; intros i operation; cbn [pollLoop];
    destruct (done operation); try reflexivity.
  rewrite !bind_emit.
  destruct (getVideosOperation env i operation) as [o|e].
  - rewrite bind_fulfilled. cbn. apply IH.
  - reflexivity.
Qed.

(** ** The [try] block, stage by stage *)

Lemma attempt_outcome (env : Env) (fuel : nat) (st : State) :
  Outcome env fuel st (attempt env fuel st).
Proof.
  unfold attempt. rewrite bind_emit.
  destruct (newGoogleGenAI env (API_KEY env)) as [[]|e] eqn:Hnew.
  2:{ cbn. now apply ConstructFails. }
  rewrite bind_fulfilled, bind_emit.
  destruct (generateVideos env (buildPayload st)) as [o|e] eqn:Hgen.
  2:{ cbn. now apply SubmitFails. }
  rewrite bind_fulfilled, bind_cases.
  destruct (pollLoop env fuel 0 o) as [ptr [o'|e|]] eqn:Hpoll;
    cbn [events completion fst snd].
  2:{ now apply PollFails with (o := o). }
  2:{ now apply PollWaits with (o := o). }
  destruct (truthy_opt (downloadLink o')) eqn:Hlink; cbn [negb].
  2:{ cbn. rewrite app_nil_r. now apply NoLink with (o := o) (o' := o'). }
  rewrite bind_emit.
  set (url := interpolate (downloadLink o') ++ lit "&key=" ++ interpolate (API_KEY env)).
  destruct (fetch env url) as [r|e] eqn:Hfetch.
  2:{ cbn. now apply FetchFails with (o := o) (o' := o'). }
  rewrite bind_fulfilled.
  destruct (ok r) eqn:Hok; cbn [negb].
  2:{ cbn. now apply FetchNotOk with (o := o) (o' := o'). }
  rewrite bind_emit.
  destruct (blob r) as [b|e] eqn:Hblob.
  2:{ cbn. now apply BlobFails with (o := o) (o' := o') (r := r). }
  rewrite bind_fulfilled. unfold createObjectURL. cbn.
  now apply Succeeds with (o := o) (o' := o') (r := r).
Qed.

(** ** The whole handler *)

Lemma onError_run (e : Error) :
  onError e =
  (ConsoleError e
   :: (if isKeyError e
       then [SetHasApiKey false; SetError (Some KEY_INVALID)]
       else [SetError (Some (rawMessage e))]),
   Normal tt).
Proof.
  unfold onError, isKeyError. rewrite bind_emit.
  destruct (includes (rawMessage e) ENTITY_NOT_FOUND); reflexivity.
Qed.

Lemma handleGenerateVideo_rejected (env : Env) (fuel : nat) (st : State) :
  rejected st = true -> handleGenerateVideo env fuel st = ([], Normal tt).
Proof. unfold handleGenerateVideo. intros ->. reflexivity. Qed.

Lemma handleGenerateVideo_run (env : Env) (fuel : nat) (st : State) :
  rejected st = false ->
  handleGenerateVideo env fuel st =
  match attempt env fuel st with
  | (tr, Normal _) => (prologue ++ tr ++ [SetIsLoading false], Normal tt)
  | (tr, Throw e) => (prologue ++ tr ++ epilogue e, Normal tt)
  | (tr, Waiting) => (prologue ++ tr, Waiting)
  end.
Proof.
  unfold handleGenerateVideo. intros ->. rewrite !bind_emit.
  unfold tryCatchFinally, tryCatch, epilogue.
  destruct (attempt env fuel st) as [tr [[]|e|]];
    rewrite ?onError_run; cbn - [LOADING_MESSAGES]; try reflexivity.
  rewrite <- app_assoc. reflexivity.
Qed.

Lemma rejected_iff (st : State) :
  rejected st = true <->
  forallb isWhiteSpace (prompt st) = true \/ isLoading st = true.
Proof.
  unfold rejected. rewrite orb_true_iff, <- trim_blank.
  destruct (trim (prompt st)); cbn; intuition congruence.
Qed.

(** ** States along a run *)

Lemma run_state_quiet (st : State) (tr : list Event) :
  quiet tr = true -> run_state st tr = st.
Proof.
  unfold quiet, run_state. revert st.
  induction tr as [|ev tr IH]; intros st H; cbn in *; [reflexivity|].
  apply andb_prop in H as [Hev Htr].
  rewrite <- (IH st Htr) at 2. f_equal.
  destruct ev; cbn in Hev; try discriminate; reflexivity.
Qed.

Lemma always_app (P : State -> Prop) (st : State) (p q : list Event) :
  always P st (p ++ q) <-> always P st p /\ always P (run_state st p) q.
Proof.
  revert st. induction p as [|ev p IH]; intros st; cbn [app always].
  - unfold run_state; cbn. destruct q; cbn; tauto.
  - rewrite IH. unfold run_state; cbn. tauto.
Qed.

Lemma always_quiet (P : State -> Prop) (st : State) (tr : list Event) :
  quiet tr = true -> P st -> always P st tr.
Proof.
  revert st. induction tr as [|ev tr IH]; intros st H HP; cbn [always].
  - auto.
  - unfold quiet in H. cbn in H. apply andb_prop in H as [Hev Htr].
    split; [exact HP|].
    replace (apply_event st ev) with st.
    + apply IH; assumption.
    + destruct ev; cbn in Hev; try discriminate; reflexivity.
Qed.

Lemma always_prefix (P : State -> Prop) (st : State) (tr : list Event) :
  always P st tr <-> forall p q, tr = p ++ q -> P (run_state st p).
Proof.
  revert st. induction tr as [|ev tr IH]; intros st; cbn [always].
  - split.
    + intros [H _] p q E. symmetry in E. apply app_eq_nil in E as [-> _].
      exact H.
    + intros H. split; [exact (H [] [] eq_refl) | exact I].
  - rewrite IH. split.
    + intros [H0 H] [|ev' p] q E; [exact H0|].
      cbn in E. injection E as <- E. exact (H p q E).
    + intros H. split; [exact (H [] (ev :: tr) eq_refl)|].
      intros p q E. apply (H (ev :: p) q). cbn. rewrite E. reflexivity.
Qed.

Lemma poll_events_quiet (tr : list Event) :
  forallb is_poll_event tr = true -> quiet tr = true.
Proof.
  unfold quiet. induction tr as [|ev tr IH]; cbn; [reflexivity|].
  intros H. apply andb_prop in H as [Hev Htr]. rewrite (IH Htr).
  destruct ev; cbn in *; try discriminate; reflexivity.
Qed.

Lemma quiet_app (p q : list Event) :
  quiet (p ++ q) = quiet p && quiet q.
Proof. apply forallb_app. Qed.

Lemma pollLoop_quiet (env : Env) (fuel i : nat) (o : Operation)
    (ptr : list Event) (c : Completion Operation) :
  pollLoop env fuel i o = (ptr, c) -> quiet ptr = true.
Proof.
  intros H. apply poll_events_quiet.
  change ptr with (events (ptr, c)). rewrite <- H. apply pollLoop_events.
Qed.

Lemma forallb_weaken (A : Type) (P Q : A -> bool) (l : list A) :
  (forall x, P x = true -> Q x = true) ->
  forallb P l = true -> forallb Q l = true.
Proof.
  intros HPQ. rewrite !forallb_forall. auto.
Qed.

Lemma attempt_events (env : Env) (fuel : nat) (st : State) :
  forallb is_attempt_event (events (attempt env fuel st)) = true.
Proof.
  assert (Hp : forall o ptr c, pollLoop env fuel 0 o = (ptr, c) ->
                 forallb is_attempt_event ptr = true).
  { intros o ptr c H. change ptr with (events (ptr, c)). rewrite <- H.
    apply forallb_weaken with (P := is_poll_event); [|apply pollLoop_events].
    intros [] Hx; cbn in *; congruence. }
  destruct (attempt_outcome env fuel st);
    cbn [events fst forallb is_attempt_event andb];
    rewrite ?forallb_app; try erewrite Hp by eassumption; reflexivity.
Qed.

Lemma epilogue_events (e : Error) :
  exists body,
    epilogue e = body ++ [SetIsLoading false] /\
    forallb is_catch_event body = true /\
    surfaced body = [surface e].
Proof.
  unfold epilogue, surface.
  destruct (isKeyError e).
  - exists [ConsoleError e; SetHasApiKey false; SetError (Some KEY_INVALID)].
    repeat split.
  - exists [ConsoleError e; SetError (Some (rawMessage e))].
    repeat split.
Qed.

Lemma keeps_loading_state (st : State) (tr : list Event) :
  forallb keeps_loading tr = true ->
  always (fun s => isLoading s = isLoading st) st tr.
Proof.
  revert st. induction tr as [|ev tr IH]; intros st H; cbn [always].
  - auto.
  - cbn in H. apply andb_prop in H as [Hev Htr]. split; [reflexivity|].
    assert (E : isLoading (apply_event st ev) = isLoading st)
      by (destruct ev; cbn in *; congruence).
    rewrite <- E. apply IH. exact Htr.
Qed.

Lemma keeps_video_state (st : State) (tr : list Event) :
  forallb keeps_video tr = true ->
  always (fun s => generatedVideoUrl s = generatedVideoUrl st) st tr.
Proof.
  revert st. induction tr as [|ev tr IH]; intros st H; cbn [always].
  - auto.
  - cbn in H. apply andb_prop in H as [Hev Htr]. split; [reflexivity|].
    assert (E : generatedVideoUrl (apply_event st ev) = generatedVideoUrl st)
      by (destruct ev; cbn in *; congruence).
    rewrite <- E. apply IH. exact Htr.
Qed.

Lemma keeps_error_state (st : State) (tr : list Event) :
  forallb keeps_error tr = true ->
  always (fun s => error s = error st) st tr.
Proof.
  revert st. induction tr as [|ev tr IH]; intros st H; cbn [always].
  - auto.
  - cbn in H. apply andb_prop in H as [Hev Htr]. split; [reflexivity|].
    assert (E : error (apply_event st ev) = error st)
      by (destruct ev; cbn in *; congruence).
    rewrite <- E. apply IH. exact Htr.
Qed.

Lemma always_weaken (P Q : State -> Prop) (st : State) (tr : list Event) :
  (forall s, P s -> Q s) -> always P st tr -> always Q st tr.
Proof.
  intros HPQ. revert st.
  induction tr as [|ev tr IH]; intros st; cbn [always]; intuition.
Qed.

Lemma always_last (P : State -> Prop) (st : State) (tr : list Event) :
  always P st tr -> P (run_state st tr).
Proof.
  intros H. apply (proj1 (always_prefix P st tr) H tr []).
  rewrite app_nil_r. reflexivity.
Qed.

Lemma prefix_of_snoc (A : Type) (p q l : list A) (x : A) :
  p ++ q = l ++ [x] -> q <> [] -> exists q', l = p ++ q'.
Proof.
  intros E Hq.
  destruct (exists_last Hq) as (q' & y & ->).
  rewrite app_assoc in E. apply app_inj_tail in E as [E _].
  exists q'. symmetry. exact E.
Qed.

(** ** One job at a time *)

Lemma handleGenerateVideo_shape (env : Env) (fuel : nat) (st : State) :
  rejected st = false ->
  exists mid last,
    events (handleGenerateVideo env fuel st) = SetIsLoading true :: mid ++ last /\
    forallb keeps_loading mid = true /\
    ((last = [SetIsLoading false] /\
      completion (handleGenerateVideo env fuel st) = Normal tt) \/
     (last = [] /\ completion (handleGenerateVideo env fuel st) = Waiting)).
Proof.
  intros Hacc. rewrite (handleGenerateVideo_run env fuel st Hacc).
  pose proof (attempt_events env fuel st) as Hev.
  assert (Hk : forallb keeps_loading (events (attempt env fuel st)) = true).
  { revert Hev. apply forallb_weaken. intros [] Hx; cbn in *; congruence. }
  clear Hev.
  destruct (attempt env fuel st) as [tr [[]|e|]]; cbn [events fst] in Hk.
  - exists (tl prologue ++ tr), [SetIsLoading false]. split; [|split].
    + cbn - [LOADING_MESSAGES]. rewrite <- ?app_assoc. reflexivity.
    + rewrite forallb_app, Hk. reflexivity.
    + left. split; reflexivity.
  - destruct (epilogue_events e) as (body & -> & Hbody & _).
    exists (tl prologue ++ tr ++ body), [SetIsLoading false]. split; [|split].
    + cbn - [LOADING_MESSAGES]. rewrite <- ?app_assoc. reflexivity.
    + rewrite !forallb_app, Hk. cbn - [LOADING_MESSAGES].
      revert Hbody. apply forallb_weaken. intros [] Hx; cbn in *; congruence.
    + left. split; reflexivity.
  - exists (tl prologue ++ tr), []. split; [|split].
    + cbn - [LOADING_MESSAGES]. rewrite ?app_nil_r. reflexivity.
    + rewrite forallb_app, Hk. reflexivity.
    + right. split; reflexivity.
Qed.

Lemma in_flight_isLoading (env : Env) (fuel : nat) (st : State)
    (p q : list Event) :
  rejected st = false ->
  events (handleGenerateVideo env fuel st) = p ++ q ->
  p <> [] ->
  q <> [] \/ completion (handleGenerateVideo env fuel st) = Waiting ->
  isLoading (run_state st p) = true.
Proof.
  intros Hacc E Hp Hq.
  destruct (handleGenerateVideo_shape env fuel st Hacc)
    as (mid & last & Eev & Hmid & Hlast).
  rewrite Eev in E.
  destruct p as [|ev p']; [contradiction|]. cbn in E. injection E as <- E.
  assert (Hpre : exists q', mid = p' ++ q').
  { destruct Hlast as [[-> Hc]|[-> Hc]].
    - destruct Hq as [Hq|Hq]; [|congruence].
      exact (prefix_of_snoc _ _ _ _ _ (eq_sym E) Hq).
    - rewrite app_nil_r in E. exists q. exact E. }
  destruct Hpre as (q' & ->).
  pose proof (keeps_loading_state (apply_event st (SetIsLoading true)) _ Hmid)
    as Hal.
  rewrite always_prefix in Hal.
  exact (Hal p' q' eq_refl).
Qed.

Lemma isLoading_filter_gen (tr : list Event) (s s' : State) :
  isLoading s = isLoading s' ->
  isLoading (run_state s tr)
  = isLoading (run_state s' (filter sets_loading tr)).
Proof.
  unfold run_state. revert s s'.
  induction tr as [|ev tr IH]; intros s s' Hs; [exact Hs|].
  cbn [filter fold_left].
  destruct (sets_loading ev) eqn:Hev.
  - cbn [fold_left]. apply IH.
    destruct ev; cbn in Hev; try discriminate; reflexivity.
  - apply IH. rewrite <- Hs.
    destruct ev; cbn in Hev; try discriminate; reflexivity.
Qed.

Lemma isLoading_filter (st : State) (tr : list Event) :
  isLoading (run_state st tr)
  = isLoading (run_state st (filter sets_loading tr)).
Proof. apply isLoading_filter_gen. reflexivity. Qed.

Lemma isLoading_determined (st : State) (tr tr' : list Event) :
  filter sets_loading tr = filter sets_loading tr' ->
  isLoading (run_state st tr) = isLoading (run_state st tr').
Proof.
  intros H. rewrite (isLoading_filter st tr), (isLoading_filter st tr'), H.
  reflexivity.
Qed.

Lemma other_handlers_keep_loading (env : Env) (st : State)
    (picked : option File) :
  filter sets_loading (events (checkApiKey env)) = [] /\
  filter sets_loading (events (handleSelectKey env)) = [] /\
  filter sets_loading (events (handleImageChange env st picked)) = [] /\
  filter sets_loading (events (removeImage st)) = [].
Proof.
  repeat apply conj.
  - unfold checkApiKey.
    destruct (aistudio env); [|reflexivity].
    destruct (hasSelectedApiKey env) as [[]|e]; reflexivity.
  - unfold handleSelectKey.
    destruct (aistudio env); [destruct (openSelectKey env)|]; reflexivity.
  - destruct picked as [f|]; [|reflexivity].
    unfold handleImageChange, fileToBase64, createObjectURL, revokePreview.
    destruct (previewUrl (referenceImage st)) as [u|];
      [destruct (truthy u)|];
      destruct (fileReaderError env f); reflexivity.
  - unfold removeImage, revokePreview.
    destruct (previewUrl (referenceImage st)) as [u|];
      [destruct (truthy u)|]; reflexivity.
Qed.

(** C1.  When a job is in flight ([isLoading] is true), or when the prompt
    is empty or made of white space only, [handleGenerateVideo] makes no
    call at all: no service request, no state setter, and the state stays
    as it was.  Consequently at most one job is in flight: at every point
    inside the run of an accepted submission (after its first call, and
    before its last one or while it still waits for the service) a further
    submission is such a no-op, whatever the environment answers, and this
    also holds when calls that leave [isLoading] alone, as those of every
    other handler do, have been made in between. *)
Theorem submit_rejected_while_busy_or_blank
    (env : Env) (fuel : nat) (st : State) :
  (isLoading st = true \/ forallb isWhiteSpace (prompt st) = true ->
   handleGenerateVideo env fuel st = ([], Normal tt) /\
   state_after st (handleGenerateVideo env fuel st) = st) /\
  (forall p q mixed,
     events (handleGenerateVideo env fuel st) = p ++ q ->
     p <> [] ->
     q <> [] \/ completion (handleGenerateVideo env fuel st) = Waiting ->
     filter sets_loading mixed = filter sets_loading p ->
     isLoading (run_state st mixed) = true /\
     forall env' fuel',
       handleGenerateVideo env' fuel' (run_state st mixed) = ([], Normal tt)) /\
  (forall env' st' picked,
     filter sets_loading (events (checkApiKey env')) = [] /\
     filter sets_loading (events (handleSelectKey env')) = [] /\
     filter sets_loading (events (handleImageChange env' st' picked)) = [] /\
     filter sets_loading (events (removeImage st')) = []).
Proof.
  repeat apply conj.
  - intros H.
    assert (Hrej : rejected st = true) by (apply rejected_iff; tauto).
    rewrite (handleGenerateVideo_rejected env fuel st Hrej).
    split; reflexivity.
  - intros p q mixed E Hp Hq Hmixed.
    destruct (rejected st) eqn:Hrej.
    + rewrite (handleGenerateVideo_rejected env fuel st Hrej) in E.
      cbn in E. symmetry in E. apply app_eq_nil in E as [-> _].
      contradiction.
    + pose proof (in_flight_isLoading env fuel st p q Hrej E Hp Hq) as Hl.
      rewrite <- (isLoading_determined st mixed p Hmixed) in Hl.
      split; [exact Hl|]. intros env' fuel'.
      apply handleGenerateVideo_rejected, rejected_iff. right. exact Hl.
  - exact other_handlers_keep_loading.
Qed.

Lemma submit_rejected_while_busy_or_blank_witness :
  (isLoading Scenario.busy = true \/
   forallb isWhiteSpace (prompt Scenario.busy) = true) /\
  handleGenerateVideo (Scenario.service 2 (Scenario.finished (Some Scenario.videoUri))
                         (Fulfilled Scenario.okResponse)) 5 Scenario.busy
  = ([], Normal tt).
Proof.
  split; [left; reflexivity|].
  apply (submit_rejected_while_busy_or_blank
           (Scenario.service 2 (Scenario.finished (Some Scenario.videoUri))
              (Fulfilled Scenario.okResponse)) 5 Scenario.busy).
  left; reflexivity.
Defined.

(** ** How a run ends *)

Lemma attempt_quiet_unless_success (env : Env) (fuel : nat) (st : State)
    (tr : list Event) (c : Completion unit) :
  attempt env fuel st = (tr, c) ->
  match c with
  | Normal _ =>
      exists tr' b,
        tr = tr' ++ [SetGeneratedVideoUrl (Some (lit "blob:" ++ objectId env b))]
        /\ quiet tr' = true
  | _ => quiet tr = true
  end.
Proof.
  intros E. pose proof (attempt_outcome env fuel st) as H. rewrite E in H.
  inversion H; subst; clear H;
    repeat match goal with
           | Hp : pollLoop _ _ _ _ = (_, _) |- _ =>
               apply pollLoop_quiet in Hp
           end;
    try reflexivity;
    try (cbn [quiet forallb is_setter negb andb]; fold (quiet ptr);
         rewrite ?quiet_app; fold (quiet ptr);
         match goal with Hq : quiet _ = true |- _ => rewrite Hq end;
         reflexivity).
  match goal with
  | |- exists _ _, _ :: _ :: ?l ++ [?f; ?r; CreateObjectURL ?b; _] = _ /\ _ =>
      exists (NewGoogleGenAI (API_KEY env) :: GenerateVideos (buildPayload st)
              :: l ++ [f; r; CreateObjectURL b]), b;
      split;
      [ cbn; rewrite <- app_assoc; reflexivity
      | cbn [quiet forallb is_setter negb andb];
        fold (quiet (l ++ [f; r; CreateObjectURL b]));
        rewrite quiet_app ]
  end.
  match goal with Hq : quiet _ = true |- _ => rewrite Hq end.
  reflexivity.
Qed.

Lemma failed_run (env : Env) (fuel : nat) (st : State)
    (tr : list Event) (e : Error) :
  rejected st = false ->
  attempt env fuel st = (tr, Throw e) ->
  handleGenerateVideo env fuel st = (prologue ++ tr ++ epilogue e, Normal tt) /\
  quiet tr = true /\
  state_after st (handleGenerateVideo env fuel st) = failed_state st e.
Proof.
  intros Hacc E.
  pose proof (attempt_quiet_unless_success env fuel st _ _ E) as Hq. cbn in Hq.
  rewrite (handleGenerateVideo_run env fuel st Hacc), E.
  split; [reflexivity|]. split; [exact Hq|].
  unfold state_after. cbn [events fst].
  rewrite !run_state_app, (run_state_quiet _ tr Hq).
  unfold epilogue, failed_state, surface.
  destruct (isKeyError e); reflexivity.
Qed.

Lemma succeeded_run (env : Env) (fuel : nat) (st : State)
    (tr : list Event) (u : unit) :
  rejected st = false ->
  attempt env fuel st = (tr, Normal u) ->
  handleGenerateVideo env fuel st = (prologue ++ tr ++ [SetIsLoading false], Normal tt) /\
  exists tr' b,
    tr = tr' ++ [SetGeneratedVideoUrl (Some (lit "blob:" ++ objectId env b))] /\
    quiet tr' = true /\
    state_after st (handleGenerateVideo env fuel st)
    = succeeded_state st (lit "blob:" ++ objectId env b).
Proof.
  intros Hacc E.
  pose proof (attempt_quiet_unless_success env fuel st _ _ E) as Hq. cbn in Hq.
  destruct Hq as (tr' & b & Etr & Hq).
  rewrite (handleGenerateVideo_run env fuel st Hacc), E.
  split; [reflexivity|]. exists tr', b. split; [exact Etr|]. split; [exact Hq|].
  unfold state_after. cbn [events fst]. subst tr.
  rewrite !run_state_app, (run_state_quiet _ tr' Hq).
  reflexivity.
Qed.

Lemma waiting_run (env : Env) (fuel : nat) (st : State) (tr : list Event) :
  rejected st = false ->
  attempt env fuel st = (tr, Waiting) ->
  handleGenerateVideo env fuel st = (prologue ++ tr, Waiting) /\
  quiet tr = true.
Proof.
  intros Hacc E.
  pose proof (attempt_quiet_unless_success env fuel st _ _ E) as Hq. cbn in Hq.
  rewrite (handleGenerateVideo_run env fuel st Hacc), E.
  split; [reflexivity | exact Hq].
Qed.

(** ** Error message and video handle *)

Lemma quiet_keeps_video (tr : list Event) :
  quiet tr = true -> forallb keeps_video tr = true.
Proof.
  apply forallb_weaken. intros [] H; cbn in *; congruence.
Qed.

Lemma cleared_stays_exclusive (env : Env) (fuel : nat) (st : State) :
  rejected st = false ->
  exists rest,
    events (handleGenerateVideo env fuel st) = clearing ++ rest /\
    always exclusive (run_state st clearing) rest.
Proof.
  intros Hacc.
  destruct (attempt env fuel st) as [tr [u|e|]] eqn:E.
  - destruct (succeeded_run env fuel st tr u Hacc E) as (-> & _).
    exists (SetLoadingMessage (nth 0 LOADING_MESSAGES []) :: tr ++ [SetIsLoading false]).
    split; [reflexivity|].
    apply always_weaken with
      (P := fun s => error s = error (run_state st clearing)).
    + intros s Hs. left. rewrite Hs. reflexivity.
    + apply keeps_error_state.
      cbn [forallb keeps_error andb]. rewrite forallb_app.
      cbn [forallb keeps_error andb]. rewrite andb_true_r.
      generalize (attempt_events env fuel st). rewrite E. cbn [events fst].
      apply forallb_weaken. intros [] H; cbn in *; congruence.
  - destruct (failed_run env fuel st tr e Hacc E) as (-> & Hq & _).
    exists (SetLoadingMessage (nth 0 LOADING_MESSAGES []) :: tr ++ epilogue e).
    split; [reflexivity|].
    apply always_weaken with
      (P := fun s => generatedVideoUrl s = generatedVideoUrl (run_state st clearing)).
    + intros s Hs. right. rewrite Hs. reflexivity.
    + apply keeps_video_state.
      cbn [forallb keeps_video andb]. rewrite forallb_app.
      rewrite (quiet_keeps_video tr Hq). unfold epilogue.
      destruct (isKeyError e); reflexivity.
  - destruct (waiting_run env fuel st tr Hacc E) as (-> & Hq).
    exists (SetLoadingMessage (nth 0 LOADING_MESSAGES []) :: tr).
    split; [reflexivity|].
    apply always_weaken with
      (P := fun s => generatedVideoUrl s = generatedVideoUrl (run_state st clearing)).
    + intros s Hs. right. rewrite Hs. reflexivity.
    + apply keeps_video_state.
      cbn [forallb keeps_video andb]. exact (quiet_keeps_video tr Hq).
Qed.

(** C10.  In a run of an accepted submission, once the handler has made its
    clearing calls ([setError(null)], [setGeneratedVideoUrl(null)]), the
    error message and the video handle are never both non-null, at any
    later point of the run, be it finished or still waiting; when the
    state the run starts from already has at most one of them, this holds
    at every point of the run.  A run whose [try] block completes ends with
    a video handle and no error message; a run whose [try] block throws
    ends with an error message and no video handle. *)
Theorem error_and_video_never_coexist (env : Env) (fuel : nat) (st : State) :
  rejected st = false ->
  (exists rest,
     events (handleGenerateVideo env fuel st) = clearing ++ rest /\
     forall p q, rest = p ++ q -> exclusive (run_state st (clearing ++ p))) /\
  (exclusive st ->
   forall p q,
     events (handleGenerateVideo env fuel st) = p ++ q ->
     exclusive (run_state st p)) /\
  (forall u, completion (attempt env fuel st) = Normal u ->
     error (state_after st (handleGenerateVideo env fuel st)) = None /\
     exists v,
       generatedVideoUrl (state_after st (handleGenerateVideo env fuel st))
       = Some v) /\
  (forall e, completion (attempt env fuel st) = Throw e ->
     error (state_after st (handleGenerateVideo env fuel st)) = Some (surface e) /\
     generatedVideoUrl (state_after st (handleGenerateVideo env fuel st)) = None).
Proof.
  intros Hacc.
  destruct (cleared_stays_exclusive env fuel st Hacc) as (rest & Erest & Hal).
  repeat apply conj.
  - exists rest. split; [exact Erest|].
    intros p q Epq. rewrite run_state_app.
    exact (proj1 (always_prefix _ _ _) Hal p q Epq).
  - intros Hex. rewrite Erest. apply always_prefix. apply always_app.
    split; [|exact Hal].
    unfold clearing. cbn [always apply_event].
    repeat split; try exact Hex; unfold exclusive; cbn; tauto.
  - intros u Hc.
    destruct (attempt env fuel st) as [tr c] eqn:E. cbn in Hc. subst c.
    destruct (succeeded_run env fuel st tr u Hacc E)
      as (_ & tr' & b & _ & _ & ->).
    split; [reflexivity|]. eexists. reflexivity.
  - intros e Hc.
    destruct (attempt env fuel st) as [tr c] eqn:E. cbn in Hc. subst c.
    destruct (failed_run env fuel st tr e Hacc E) as (_ & _ & ->).
    split; reflexivity.
Qed.

(** ** The poll loop: iterations and exit *)

Lemma pollLoop_done_now (env : Env) (fuel i : nat) (o : Operation) :
  done o = true -> pollLoop env fuel i o = ([], Normal o).
Proof. intros H. destruct fuel; cbn [pollLoop]; rewrite H; reflexivity. Qed.

Lemma pollLoop_step (env : Env) (fuel i : nat) (o : Operation) :
  done o = false ->
  pollLoop env (S fuel) i o =
  (emit (SetTimeout 10000) ;;
   emit (GetVideosOperation o) ;;
   o' <- await (getVideosOperation env i o) ;;
   pollLoop env fuel (S i) o').
Proof. intros H. cbn [pollLoop]. rewrite H. reflexivity. Qed.

Lemma pollLoop_step_fulfilled (env : Env) (fuel i : nat) (o o' : Operation) :
  done o = false ->
  getVideosOperation env i o = Fulfilled o' ->
  pollLoop env (S fuel) i o =
  (SetTimeout 10000 :: GetVideosOperation o
     :: events (pollLoop env fuel (S i) o'),
   completion (pollLoop env fuel (S i) o')).
Proof.
  intros H Hget. rewrite (pollLoop_step env fuel i o H), !bind_emit, Hget.
  rewrite bind_fulfilled. reflexivity.
Qed.

Lemma pollLoop_step_rejected (env : Env) (fuel i : nat) (o : Operation)
    (e : Error) :
  done o = false ->
  getVideosOperation env i o = Rejected e ->
  pollLoop env (S fuel) i o =
  ([SetTimeout 10000; GetVideosOperation o], Throw e).
Proof.
  intros H Hget. rewrite (pollLoop_step env fuel i o H), !bind_emit, Hget.
  reflexivity.
Qed.

Lemma pollLoop_returns_iff (env : Env) (fuel i : nat) (o : Operation)
    (tr : list Event) (o' : Operation) :
  pollLoop env fuel i o = (tr, Normal o') <->
  exists os,
    List.length os <= fuel /\ Polled env i o os o' /\ done o' = true /\
    tr = poll_trace os.
Proof.
  revert i o tr.
  induction fuel as [|fuel IH]; intros i o tr.
  - cbn [pollLoop]. destruct (done o) eqn:Hd.
    + split.
      * intros E. injection E as <- <-. exists []. cbn.
        repeat split; [lia | constructor | exact Hd].
      * intros (os & Hlen & Hp & Hd' & ->).
        destruct os; [|cbn in Hlen; lia].
        inversion Hp; subst. reflexivity.
    + split; [discriminate|].
      intros (os & Hlen & Hp & Hd' & ->).
      destruct os; [|cbn in Hlen; lia].
      inversion Hp; subst. congruence.
  - destruct (done o) eqn:Hd.
    + rewrite (pollLoop_done_now env (S fuel) i o Hd). split.
      * intros E. injection E as <- <-. exists []. cbn.
        repeat split; [lia | constructor | exact Hd].
      * intros (os & Hlen & Hp & Hd' & ->).
        inversion Hp; subst; [reflexivity | congruence].
    + destruct (getVideosOperation env i o) as [o1|e] eqn:Hget.
      * rewrite (pollLoop_step_fulfilled env fuel i o o1 Hd Hget). split.
        -- intros E. injection E as <- Hc.
           destruct (pollLoop env fuel (S i) o1) as [tr1 c1] eqn:E1.
           cbn in Hc. subst c1.
           apply IH in E1 as (os & Hlen & Hp & Hd' & ->).
           exists (o :: os). cbn.
           repeat split; [lia | econstructor; eassumption | exact Hd'].
        -- intros (os & Hlen & Hp & Hd' & ->).
           inversion Hp; subst; [congruence|].
           assert (o'0 = o1) by congruence. subst o'0.
           cbn in Hlen.
           assert (E1 : pollLoop env fuel (S i) o1 = (poll_trace os0, Normal o')).
           { apply IH. exists os0. repeat split; [lia | assumption..]. }
           rewrite E1. reflexivity.
      * rewrite (pollLoop_step_rejected env fuel i o e Hd Hget). split.
        -- discriminate.
        -- intros (os & Hlen & Hp & Hd' & ->).
           inversion Hp; subst; congruence.
Qed.

Lemma pollLoop_waits (env : Env) :
  (forall i o, exists o',
      getVideosOperation env i o = Fulfilled o' /\ done o' = false) ->
  forall fuel i o,
    done o = false ->
    exists os, List.length os = fuel /\ pollLoop env fuel i o = (poll_trace os, Waiting).
Proof.
  intros Hnever.
  induction fuel as [|fuel IH]; intros i o Hd.
  - exists []. cbn [pollLoop]. rewrite Hd. split; reflexivity.
  - destruct (Hnever i o) as (o1 & Hget & Hd1).
    destruct (IH (S i) o1 Hd1) as (os & Hlen & E).
    exists (o :: os). split; [cbn; lia|].
    rewrite (pollLoop_step_fulfilled env fuel i o o1 Hd Hget), E.
    reflexivity.
Qed.

Lemma service_polls (n : nat) (final : Operation) (media : Settled FetchResponse) :
  done final = true ->
  forall fuel k i,
    i + k = n ->
    pollLoop (Scenario.service n final media) fuel i
      (if Nat.eqb k 0 then final else Scenario.running)
    = if Nat.leb k fuel
      then (poll_trace (repeat Scenario.running k), Normal final)
      else (poll_trace (repeat Scenario.running fuel), Waiting).
Proof.
  intros Hfin.
  induction fuel as [|fuel IH]; intros k i Hik.
  - destruct k as [|k]; cbn [Nat.eqb Nat.leb pollLoop].
    + rewrite Hfin. reflexivity.
    + reflexivity.
  - destruct k as [|k]; cbn [Nat.eqb Nat.leb].
    + rewrite (pollLoop_done_now _ (S fuel) i final Hfin). reflexivity.
    + rewrite (pollLoop_step_fulfilled (Scenario.service n final media)
                 fuel i Scenario.running
                 (if Nat.eqb k 0 then final else Scenario.running)).
      * rewrite (IH k (S i)) by lia.
        destruct (Nat.leb k fuel); reflexivity.
      * reflexivity.
      * cbn [getVideosOperation Scenario.service]. f_equal.
        destruct (Nat.eqb_spec (S i) n), (Nat.eqb_spec k 0);
          try reflexivity; lia.
Qed.

Lemma poll_trace_length (os : list Operation) :
  List.length (poll_trace os) = 2 * List.length os.
Proof. induction os; cbn [poll_trace List.length]; lia. Qed.

(** C5.  The poll loop repeats as long as the operation in hand is not
    done.  One iteration sets the ten-second timer and then queries the
    job status ([poll_trace]); the loop leaves with an operation exactly
    when that operation reports [done] and is the submission's reply or the
    reply to the last of the polls made, all earlier ones having reported
    not done ([Polled]).  No number of iterations is the last one by
    itself: a service that never reports [done] keeps the loop waiting
    whatever the budget, and for every [n] there is a service under which
    the loop makes exactly [n] iterations before it leaves.  (A rejected
    poll abandons the loop with that error.) *)
Theorem poll_loop_runs_until_done :
  (forall env fuel i o,
     done o = true -> pollLoop env fuel i o = ([], Normal o)) /\
  (forall env fuel i o,
     done o = false ->
     pollLoop env (S fuel) i o =
     (emit (SetTimeout 10000) ;;
      emit (GetVideosOperation o) ;;
      o' <- await (getVideosOperation env i o) ;;
      pollLoop env fuel (S i) o')) /\
  (forall env fuel i o tr o',
     pollLoop env fuel i o = (tr, Normal o') <->
     exists os,
       List.length os <= fuel /\ Polled env i o os o' /\ done o' = true /\
       tr = poll_trace os) /\
  (forall env,
     (forall i o, exists o',
         getVideosOperation env i o = Fulfilled o' /\ done o' = false) ->
     forall fuel i o,
       done o = false ->
       exists os,
         List.length os = fuel /\
         pollLoop env fuel i o = (poll_trace os, Waiting)) /\
  (forall n, exists env o os o',
     List.length os = n /\
     pollLoop env n 0 o = (poll_trace os, Normal o') /\
     forall fuel, fuel < n -> completion (pollLoop env fuel 0 o) = Waiting) /\
  (forall env fuel i o e,
     done o = false ->
     getVideosOperation env i o = Rejected e ->
     pollLoop env (S fuel) i o =
     ([SetTimeout 10000; GetVideosOperation o], Throw e)).
Proof.
  repeat apply conj.
  - exact pollLoop_done_now.
  - exact pollLoop_step.
  - exact pollLoop_returns_iff.
  - exact pollLoop_waits.
  - intros n.
    pose proof (service_polls n (Scenario.finished None) (Rejected TypeError)
                  eq_refl) as H.
    exists (Scenario.service n (Scenario.finished None) (Rejected TypeError)),
      (if Nat.eqb n 0 then Scenario.finished None else Scenario.running),
      (repeat Scenario.running n), (Scenario.finished None).
    repeat split.
    + apply repeat_length.
    + rewrite (H n n 0 eq_refl), Nat.leb_refl. reflexivity.
    + intros fuel Hlt. rewrite (H fuel n 0 eq_refl).
      destruct (Nat.leb_spec n fuel); [lia | reflexivity].
  - exact pollLoop_step_rejected.
Qed.

Lemma poll_loop_runs_until_done_witness :
  pollLoop (Scenario.service 3 (Scenario.finished (Some Scenario.videoUri))
              (Fulfilled Scenario.okResponse)) 3 0 Scenario.running
  = ([SetTimeout 10000; GetVideosOperation Scenario.running;
      SetTimeout 10000; GetVideosOperation Scenario.running;
      SetTimeout 10000; GetVideosOperation Scenario.running],
     Normal (Scenario.finished (Some Scenario.videoUri))).
Proof.
  apply (proj1 (proj2 (proj2 poll_loop_runs_until_done))).
  exists [Scenario.running; Scenario.running; Scenario.running].
  repeat split.
  - cbn. lia.
  - repeat (econstructor; try reflexivity).
Defined.

(** ** What a failed attempt shows *)

Lemma surfaced_app (p q : list Event) :
  surfaced (p ++ q) = surfaced p ++ surfaced q.
Proof.
  induction p as [|ev p IH]; cbn [app surfaced]; [reflexivity|].
  destruct ev; cbn [app]; try (rewrite IH; reflexivity).
  destruct e; cbn [app]; rewrite IH; reflexivity.
Qed.

Lemma surfaced_quiet (tr : list Event) : quiet tr = true -> surfaced tr = [].
Proof.
  unfold quiet. induction tr as [|ev tr IH]; cbn [forallb surfaced];
    [reflexivity|].
  intros H. apply andb_prop in H as [Hev Htr].
  destruct ev; cbn in Hev; try discriminate; exact (IH Htr).
Qed.

Lemma surfaced_epilogue (e : Error) : surfaced (epilogue e) = [surface e].
Proof. unfold epilogue, surface. destruct (isKeyError e); reflexivity. Qed.

Lemma filter_none (A : Type) (P Q : A -> bool) (l : list A) :
  (forall x, P x = true -> Q x = false) ->
  forallb P l = true -> filter Q l = [].
Proof.
  intros HPQ. induction l as [|x l IH]; cbn [forallb filter]; [reflexivity|].
  intros H. apply andb_prop in H as [Hx Hl].
  rewrite (HPQ x Hx). exact (IH Hl).
Qed.

Lemma or_else_truthy (o : option jsstring) (d : jsstring) :
  truthy d = true -> truthy (or_else o d) = true.
Proof.
  intros Hd. unfold or_else.
  destruct o as [[|c s]|]; cbn; try exact Hd. reflexivity.
Qed.

Lemma surface_truthy (e : Error) : truthy (surface e) = true.
Proof.
  unfold surface. destruct (isKeyError e); [reflexivity|].
  apply or_else_truthy. reflexivity.
Qed.

Lemma includes_nil (needle : jsstring) :
  truthy needle = true -> includes [] needle = false.
Proof. destruct needle; [discriminate | reflexivity]. Qed.

Lemma startsWith_refl (s t : jsstring) : startsWith (s ++ t) s = true.
Proof.
  induction s as [|c s IH]; cbn [app startsWith].
  - destruct t; reflexivity.
  - rewrite N.eqb_refl. exact IH.
Qed.

Lemma includes_suffix (p s : jsstring) : includes (p ++ s) s = true.
Proof.
  induction p as [|c p IH]; cbn [app].
  - destruct s as [|d s]; [reflexivity|].
    cbn [includes]. rewrite <- (app_nil_r (d :: s)) at 1.
    rewrite startsWith_refl. reflexivity.
  - cbn [includes]. rewrite IH. apply orb_true_r.
Qed.

Lemma fetch_failed_is_key_error (s : jsstring) :
  includes (FETCH_FAILED ++ s) ENTITY_NOT_FOUND = includes s ENTITY_NOT_FOUND.
Proof.
  unfold ENTITY_NOT_FOUND.
  change (lit "Requested entity was not found.")
    with (82%N :: lit "equested entity was not found.").
  apply includes_skip. reflexivity.
Qed.

Lemma attempt_requests_once (env : Env) (fuel : nat) (st : State) :
  List.length (filter is_submission (events (attempt env fuel st))) <= 1 /\
  List.length (filter is_fetch (events (attempt env fuel st))) <= 1 /\
  filter is_credential_query (events (attempt env fuel st)) = [].
Proof.
  assert (Hp : forall o ptr c Q, pollLoop env fuel 0 o = (ptr, c) ->
                 (forall ev, is_poll_event ev = true -> Q ev = false) ->
                 filter Q ptr = []).
  { intros o ptr c Q H HQ. apply (filter_none _ is_poll_event).
    - exact HQ.
    - change ptr with (events (ptr, c)). rewrite <- H. apply pollLoop_events. }
  assert (H1 : forall ev, is_poll_event ev = true -> is_submission ev = false)
    by (intros []; cbn; congruence).
  assert (H2 : forall ev, is_poll_event ev = true -> is_fetch ev = false)
    by (intros []; cbn; congruence).
  assert (H3 : forall ev, is_poll_event ev = true -> is_credential_query ev = false)
    by (intros []; cbn; congruence).
  destruct (attempt_outcome env fuel st);
    cbn [events fst filter is_submission is_fetch is_credential_query];
    rewrite ?filter_app;
    repeat match goal with
           | Hpoll : pollLoop _ _ _ _ = (_, _) |- _ =>
               rewrite (Hp _ _ _ is_submission Hpoll H1),
                       (Hp _ _ _ is_fetch Hpoll H2),
                       (Hp _ _ _ is_credential_query Hpoll H3);
               clear Hpoll
           end;
    cbn; repeat split; lia.
Qed.

Lemma handler_events_of_failure (env : Env) (fuel : nat) (st : State)
    (tr : list Event) (e : Error) :
  rejected st = false ->
  attempt env fuel st = (tr, Throw e) ->
  completion (handleGenerateVideo env fuel st) = Normal tt /\
  events (handleGenerateVideo env fuel st) = prologue ++ tr ++ epilogue e /\
  surfaced (events (handleGenerateVideo env fuel st)) = [surface e] /\
  state_after st (handleGenerateVideo env fuel st) = failed_state st e.
Proof.
  intros Hacc E.
  destruct (failed_run env fuel st tr e Hacc E) as (Hrun & Hq & Hst).
  rewrite Hst, Hrun. cbn [completion events fst snd].
  repeat split.
  rewrite !surfaced_app, (surfaced_quiet tr Hq), surfaced_epilogue.
  reflexivity.
Qed.

Lemma no_link_attempt (env : Env) (fuel : nat) (st : State)
    (o : Operation) (ptr : list Event) (o' : Operation) :
  newGoogleGenAI env (API_KEY env) = Fulfilled tt ->
  generateVideos env (buildPayload st) = Fulfilled o ->
  pollLoop env fuel 0 o = (ptr, Normal o') ->
  truthy_opt (downloadLink o') = false ->
  attempt env fuel st =
  (NewGoogleGenAI (API_KEY env) :: GenerateVideos (buildPayload st) :: ptr,
   Throw {| message := Some NO_DOWNLOAD_LINK |}).
Proof.
  intros Hnew Hgen Hpoll Hlink.
  pose proof (attempt_outcome env fuel st) as Ho.
  inversion Ho; subst; congruence.
Qed.

Lemma fetch_not_ok_attempt (env : Env) (fuel : nat) (st : State)
    (o : Operation) (ptr : list Event) (o' : Operation) (r : FetchResponse) :
  newGoogleGenAI env (API_KEY env) = Fulfilled tt ->
  generateVideos env (buildPayload st) = Fulfilled o ->
  pollLoop env fuel 0 o = (ptr, Normal o') ->
  truthy_opt (downloadLink o') = true ->
  fetch env (interpolate (downloadLink o') ++ lit "&key="
             ++ interpolate (API_KEY env)) = Fulfilled r ->
  ok r = false ->
  attempt env fuel st =
  (NewGoogleGenAI (API_KEY env) :: GenerateVideos (buildPayload st)
     :: ptr ++ [Fetch (interpolate (downloadLink o') ++ lit "&key="
                       ++ interpolate (API_KEY env))],
   Throw {| message := Some (FETCH_FAILED ++ statusText r) |}).
Proof.
  intros Hnew Hgen Hpoll Hlink Hfetch Hok.
  pose proof (attempt_outcome env fuel st) as Ho.
  inversion Ho; subst; try congruence.
  assert (o0 = o) by congruence. subst o0.
  assert (ptr0 = ptr /\ o'0 = o') as [-> ->] by (split; congruence).
  assert (r0 = r) by congruence. subst r0. reflexivity.
Qed.

(** C2.  When the submission is accepted and the polls lead to an
    operation that is done but whose response holds no video URI (missing,
    or the empty string), the run, given the time for those polls, completes
    in the failed state: the error message is the "no download link" one
    and the only one surfaced, the busy flag is cleared, there is no video
    handle, and the run has made no [fetch] call. *)
Theorem done_without_link_fails (env : Env) (fuel : nat) (st : State)
    (o : Operation) (os : list Operation) (o' : Operation) :
  rejected st = false ->
  newGoogleGenAI env (API_KEY env) = Fulfilled tt ->
  generateVideos env (buildPayload st) = Fulfilled o ->
  Polled env 0 o os o' ->
  done o' = true ->
  List.length os <= fuel ->
  truthy_opt (downloadLink o') = false ->
  completion (handleGenerateVideo env fuel st) = Normal tt /\
  error (state_after st (handleGenerateVideo env fuel st))
  = Some (lit "Video generation succeeded but no download link was found.") /\
  surfaced (events (handleGenerateVideo env fuel st))
  = [lit "Video generation succeeded but no download link was found."] /\
  isLoading (state_after st (handleGenerateVideo env fuel st)) = false /\
  generatedVideoUrl (state_after st (handleGenerateVideo env fuel st)) = None /\
  filter is_fetch (events (handleGenerateVideo env fuel st)) = [].
Proof.
  intros Hacc Hnew Hgen Hpolled Hdone Hfuel Hlink.
  assert (Hpoll : pollLoop env fuel 0 o = (poll_trace os, Normal o')).
  { apply pollLoop_returns_iff. exists os. auto. }
  pose proof (no_link_attempt env fuel st o _ o' Hnew Hgen Hpoll Hlink) as E.
  destruct (handler_events_of_failure env fuel st _ _ Hacc E)
    as (Hc & Hev & Hs & Hst).
  rewrite Hst, Hs, Hc, Hev. repeat split.
  rewrite !filter_app. cbn [filter is_fetch app].
  rewrite (filter_none _ is_poll_event is_fetch (poll_trace os)).
  - reflexivity.
  - by_event.
  - change (poll_trace os) with (events (poll_trace os, Normal o')).
    rewrite <- Hpoll. apply pollLoop_events.
Qed.

Lemma done_without_link_fails_witness :
  rejected Scenario.ready = false /\
  Polled (Scenario.service 2 (Scenario.finished None)
            (Fulfilled Scenario.okResponse))
    0 Scenario.running [Scenario.running; Scenario.running]
    (Scenario.finished None) /\
  error (state_after Scenario.ready
           (handleGenerateVideo
              (Scenario.service 2 (Scenario.finished None)
                 (Fulfilled Scenario.okResponse)) 2 Scenario.ready))
  = Some (lit "Video generation succeeded but no download link was found.").
Proof.
  assert (Hp : Polled (Scenario.service 2 (Scenario.finished None)
                         (Fulfilled Scenario.okResponse))
                 0 Scenario.running [Scenario.running; Scenario.running]
                 (Scenario.finished None))
    by (repeat (econstructor; try reflexivity)).
  split; [reflexivity|]. split; [exact Hp|].
  apply (done_without_link_fails
           (Scenario.service 2 (Scenario.finished None)
              (Fulfilled Scenario.okResponse)) 2 Scenario.ready
           Scenario.running
           [Scenario.running; Scenario.running]
           (Scenario.finished None));
    try reflexivity; exact Hp.
Defined.

Lemma epilogue_filter (e : Error) (Q : Event -> bool) :
  (forall ev, is_catch_event ev = true -> Q ev = false) ->
  Q (SetIsLoading false) = false ->
  filter Q (epilogue e) = [].
Proof.
  intros HQ HQ'. destruct (epilogue_events e) as (body & -> & Hbody & _).
  rewrite filter_app, (filter_none _ is_catch_event Q body HQ Hbody).
  cbn. rewrite HQ'. reflexivity.
Qed.

(** C6.  Whatever error the [try] block ends with, at whatever stage
    (constructing the client, submission, a poll, the result check, the
    media fetch or reading its body), the run completes: it surfaces
    exactly one message, which is not empty, that message is the error
    shown afterwards, the busy flag is cleared, and nothing is tried again:
    the calls made after the failure contain no request, and the whole run
    has submitted at most once and fetched at most once. *)
Theorem every_error_ends_the_attempt (env : Env) (fuel : nat) (st : State)
    (tr : list Event) (e : Error) :
  rejected st = false ->
  attempt env fuel st = (tr, Throw e) ->
  completion (handleGenerateVideo env fuel st) = Normal tt /\
  events (handleGenerateVideo env fuel st) = prologue ++ tr ++ epilogue e /\
  surfaced (events (handleGenerateVideo env fuel st)) = [surface e] /\
  truthy (surface e) = true /\
  error (state_after st (handleGenerateVideo env fuel st)) = Some (surface e) /\
  isLoading (state_after st (handleGenerateVideo env fuel st)) = false /\
  generatedVideoUrl (state_after st (handleGenerateVideo env fuel st)) = None /\
  filter is_request (epilogue e) = [] /\
  List.length (filter is_submission (events (handleGenerateVideo env fuel st))) <= 1 /\
  List.length (filter is_fetch (events (handleGenerateVideo env fuel st))) <= 1.
Proof.
  intros Hacc E.
  destruct (handler_events_of_failure env fuel st tr e Hacc E)
    as (Hc & Hev & Hs & Hst).
  destruct (attempt_requests_once env fuel st) as (Hsub & Hfetch & _).
  rewrite E in Hsub, Hfetch. cbn [events fst] in Hsub, Hfetch.
  pose proof (epilogue_filter e) as Hepi.
  rewrite Hst, Hs, Hc, Hev. repeat apply conj; try reflexivity.
  - apply surface_truthy.
  - apply Hepi; [by_event | reflexivity].
  - rewrite !filter_app, Hepi;
      [| by_event | reflexivity].
    rewrite app_nil_r. exact Hsub.
  - rewrite !filter_app, Hepi;
      [| by_event | reflexivity].
    rewrite app_nil_r. exact Hfetch.
Qed.

Lemma every_error_ends_the_attempt_witness :
  rejected Scenario.ready = false /\
  attempt (Scenario.refusing Scenario.quotaError) 4 Scenario.ready
  = ([NewGoogleGenAI (Some (lit "KEY"));
      GenerateVideos (buildPayload Scenario.ready)],
     Throw Scenario.quotaError) /\
  surfaced (events (handleGenerateVideo (Scenario.refusing Scenario.quotaError)
                      4 Scenario.ready))
  = [lit "Quota exceeded for this project."].
Proof.
  split; [reflexivity|]. split; [reflexivity|].
  apply (every_error_ends_the_attempt
           (Scenario.refusing Scenario.quotaError) 4 Scenario.ready
           [NewGoogleGenAI (Some (lit "KEY"));
            GenerateVideos (buildPayload Scenario.ready)]
           Scenario.quotaError);
    reflexivity.
Defined.

(** ** Which message an error becomes *)

Lemma raw_message_some (e : Error) (m : jsstring) :
  message e = Some m -> truthy m = true -> rawMessage e = m.
Proof.
  intros Hm Ht. unfold rawMessage, or_else. rewrite Hm. cbn. rewrite Ht.
  reflexivity.
Qed.

Lemma raw_message_default (e : Error) :
  truthy_opt (message e) = false -> rawMessage e = UNKNOWN_ERROR.
Proof.
  intros Ht. unfold rawMessage, or_else. rewrite Ht. reflexivity.
Qed.

Lemma includes_truthy (s needle : jsstring) :
  truthy needle = true -> includes s needle = true -> truthy s = true.
Proof.
  intros Hn Hi. destruct s; [|reflexivity].
  rewrite (includes_nil needle Hn) in Hi. discriminate.
Qed.

(** C3, as the code has it.  When the error's message contains
    "Requested entity was not found.", the message shown is the
    credential-invalid one and [hasApiKey] becomes false.  Every other
    error leaves [hasApiKey] as it was; its message is shown unchanged when
    it is not empty, and an error whose message is missing or empty is
    shown as "An unknown error occurred.". *)
Theorem error_message_classification (env : Env) (fuel : nat) (st : State)
    (tr : list Event) (e : Error) :
  rejected st = false ->
  attempt env fuel st = (tr, Throw e) ->
  (forall m,
     message e = Some m ->
     includes m (lit "Requested entity was not found.") = true ->
     error (state_after st (handleGenerateVideo env fuel st))
     = Some (lit "Your API key is invalid or not found. Please select a valid key and try again.") /\
     hasApiKey (state_after st (handleGenerateVideo env fuel st)) = false) /\
  (forall m,
     message e = Some m ->
     truthy m = true ->
     includes m (lit "Requested entity was not found.") = false ->
     error (state_after st (handleGenerateVideo env fuel st)) = Some m /\
     hasApiKey (state_after st (handleGenerateVideo env fuel st)) = hasApiKey st) /\
  (truthy_opt (message e) = false ->
   error (state_after st (handleGenerateVideo env fuel st))
   = Some (lit "An unknown error occurred.") /\
   hasApiKey (state_after st (handleGenerateVideo env fuel st)) = hasApiKey st).
Proof.
  intros Hacc E.
  destruct (failed_run env fuel st tr e Hacc E) as (_ & _ & ->).
  unfold failed_state, surface, isKeyError. cbn [error hasApiKey].
  repeat apply conj.
  - intros m Hm Hi.
    rewrite (raw_message_some e m Hm
               (includes_truthy m (lit "Requested entity was not found.") eq_refl Hi)).
    fold ENTITY_NOT_FOUND in Hi. rewrite Hi. split; reflexivity.
  - intros m Hm Ht Hi.
    rewrite (raw_message_some e m Hm Ht).
    fold ENTITY_NOT_FOUND in Hi. rewrite Hi. split; reflexivity.
  - intros Ht. rewrite (raw_message_default e Ht). split; reflexivity.
Qed.

Lemma error_message_classification_witness :
  rejected Scenario.ready = false /\
  attempt (Scenario.refusing Scenario.entityError) 4 Scenario.ready
  = ([NewGoogleGenAI (Some (lit "KEY"));
      GenerateVideos (buildPayload Scenario.ready)],
     Throw Scenario.entityError) /\
  error (state_after Scenario.ready
           (handleGenerateVideo (Scenario.refusing Scenario.entityError)
              4 Scenario.ready))
  = Some (lit "Your API key is invalid or not found. Please select a valid key and try again.") /\
  hasApiKey (state_after Scenario.ready
               (handleGenerateVideo (Scenario.refusing Scenario.entityError)
                  4 Scenario.ready)) = false.
Proof.
  split; [reflexivity|]. split; [reflexivity|].
  apply (proj1 (error_message_classification
                  (Scenario.refusing Scenario.entityError) 4 Scenario.ready
                  [NewGoogleGenAI (Some (lit "KEY"));
                   GenerateVideos (buildPayload Scenario.ready)]
                  Scenario.entityError eq_refl eq_refl)
           (lit "404 NOT_FOUND: Requested entity was not found."));
    reflexivity.
Defined.

(** C3 as the specification words it fails: an error whose message is the
    empty string does not contain the substring, and yet the message shown
    is not that raw message but "An unknown error occurred.". *)
Lemma raw_message_not_always_surfaced :
  attempt (Scenario.refusing Scenario.emptyError) 4 Scenario.ready
  = ([NewGoogleGenAI (Some (lit "KEY"));
      GenerateVideos (buildPayload Scenario.ready)],
     Throw Scenario.emptyError) /\
  message Scenario.emptyError = Some [] /\
  includes [] (lit "Requested entity was not found.") = false /\
  error (state_after Scenario.ready
           (handleGenerateVideo (Scenario.refusing Scenario.emptyError)
              4 Scenario.ready))
  = Some (lit "An unknown error occurred.") /\
  error (state_after Scenario.ready
           (handleGenerateVideo (Scenario.refusing Scenario.emptyError)
              4 Scenario.ready))
  <> message Scenario.emptyError.
Proof.
  repeat split. discriminate.
Qed.

(** ** A media fetch that is not [ok] *)

(** C4, as the code has it.  When the polls lead to a done operation with
    a video URI and the media fetch resolves with a response that is not
    [ok], the run, given the time for those polls, completes in the failed
    state: the busy flag is cleared, there is no video handle and no object
    URL was created.  The message shown is "Failed to fetch video data: "
    followed by the response's status text, unless that status text contains
    "Requested entity was not found.": then the credential-invalid message
    is shown in its place and [hasApiKey] becomes false. *)
Theorem fetch_failure_surfaces_status (env : Env) (fuel : nat) (st : State)
    (o : Operation) (os : list Operation) (o' : Operation)
    (r : FetchResponse) :
  rejected st = false ->
  newGoogleGenAI env (API_KEY env) = Fulfilled tt ->
  generateVideos env (buildPayload st) = Fulfilled o ->
  Polled env 0 o os o' ->
  done o' = true ->
  List.length os <= fuel ->
  truthy_opt (downloadLink o') = true ->
  fetch env (interpolate (downloadLink o') ++ lit "&key="
             ++ interpolate (API_KEY env)) = Fulfilled r ->
  ok r = false ->
  completion (handleGenerateVideo env fuel st) = Normal tt /\
  isLoading (state_after st (handleGenerateVideo env fuel st)) = false /\
  generatedVideoUrl (state_after st (handleGenerateVideo env fuel st)) = None /\
  filter is_createObjectURL (events (handleGenerateVideo env fuel st)) = [] /\
  (includes (statusText r) (lit "Requested entity was not found.") = false ->
   error (state_after st (handleGenerateVideo env fuel st))
   = Some (lit "Failed to fetch video data: " ++ statusText r) /\
   includes (lit "Failed to fetch video data: " ++ statusText r) (statusText r)
   = true /\
   hasApiKey (state_after st (handleGenerateVideo env fuel st)) = hasApiKey st) /\
  (includes (statusText r) (lit "Requested entity was not found.") = true ->
   error (state_after st (handleGenerateVideo env fuel st))
   = Some (lit "Your API key is invalid or not found. Please select a valid key and try again.") /\
   hasApiKey (state_after st (handleGenerateVideo env fuel st)) = false).
Proof.
  intros Hacc Hnew Hgen Hpolled Hdone Hfuel Hlink Hfetch Hok.
  assert (Hpoll : pollLoop env fuel 0 o = (poll_trace os, Normal o')).
  { apply pollLoop_returns_iff. exists os. auto. }
  pose proof (fetch_not_ok_attempt env fuel st o _ o' r
                Hnew Hgen Hpoll Hlink Hfetch Hok) as E.
  destruct (handler_events_of_failure env fuel st _ _ Hacc E)
    as (Hc & Hev & _ & Hst).
  rewrite Hst, Hc, Hev.
  unfold failed_state, surface, isKeyError, rawMessage, or_else.
  cbn [error hasApiKey isLoading generatedVideoUrl message truthy_opt].
  change (truthy (FETCH_FAILED ++ statusText r)) with true. cbv iota.
  rewrite fetch_failed_is_key_error.
  repeat apply conj; try reflexivity.
  - rewrite !filter_app. cbn [filter is_createObjectURL app].
    rewrite filter_app,
      (filter_none _ is_poll_event is_createObjectURL (poll_trace os)).
    + rewrite epilogue_filter; [reflexivity | | reflexivity].
      by_event.
    + by_event.
    + change (poll_trace os) with (events (poll_trace os, Normal o')).
      rewrite <- Hpoll. apply pollLoop_events.
  - intros Hi. fold ENTITY_NOT_FOUND in Hi. rewrite Hi.
    repeat split. apply includes_suffix.
  - intros Hi. fold ENTITY_NOT_FOUND in Hi. rewrite Hi. split; reflexivity.
Qed.

Lemma fetch_failure_surfaces_status_witness :
  rejected Scenario.ready = false /\
  Polled (Scenario.service 1 (Scenario.finished (Some Scenario.videoUri))
            (Fulfilled (Scenario.failedResponse (lit "Forbidden"))))
    0 Scenario.running [Scenario.running]
    (Scenario.finished (Some Scenario.videoUri)) /\
  ok (Scenario.failedResponse (lit "Forbidden")) = false /\
  includes (lit "Forbidden") (lit "Requested entity was not found.") = false /\
  error (state_after Scenario.ready
           (handleGenerateVideo
              (Scenario.service 1 (Scenario.finished (Some Scenario.videoUri))
                 (Fulfilled (Scenario.failedResponse (lit "Forbidden"))))
              1 Scenario.ready))
  = Some (lit "Failed to fetch video data: Forbidden").
Proof.
  assert (Hp : Polled
                 (Scenario.service 1 (Scenario.finished (Some Scenario.videoUri))
                    (Fulfilled (Scenario.failedResponse (lit "Forbidden"))))
                 0 Scenario.running [Scenario.running]
                 (Scenario.finished (Some Scenario.videoUri)))
    by (repeat (econstructor; try reflexivity)).
  split; [reflexivity|]. split; [exact Hp|].
  split; [reflexivity|]. split; [reflexivity|].
  apply (fetch_failure_surfaces_status
           (Scenario.service 1 (Scenario.finished (Some Scenario.videoUri))
              (Fulfilled (Scenario.failedResponse (lit "Forbidden"))))
           1 Scenario.ready Scenario.running
           [Scenario.running]
           (Scenario.finished (Some Scenario.videoUri))
           (Scenario.failedResponse (lit "Forbidden")));
    try reflexivity; exact Hp.
Defined.

(** C4 as the specification words it fails: a response that is not [ok]
    and whose status text is "Requested entity was not found." ends with
    the credential-invalid message, which does not carry that status
    text. *)
Lemma status_text_can_be_replaced :
  ok (Scenario.failedResponse (lit "Requested entity was not found.")) = false /\
  error (state_after Scenario.ready
           (handleGenerateVideo
              (Scenario.service 1 (Scenario.finished (Some Scenario.videoUri))
                 (Fulfilled (Scenario.failedResponse
                               (lit "Requested entity was not found."))))
              1 Scenario.ready))
  = Some (lit "Your API key is invalid or not found. Please select a valid key and try again.") /\
  includes
    (lit "Your API key is invalid or not found. Please select a valid key and try again.")
    (statusText (Scenario.failedResponse (lit "Requested entity was not found.")))
  = false.
Proof.
  repeat split.
Qed.

(** ** The reference image *)

Lemma revokePreview_run (st : State) :
  revokePreview st =
  (match previewUrl (referenceImage st) with
   | Some u => if truthy u then [RevokeObjectURL u] else []
   | None => []
   end, Normal tt).
Proof.
  unfold revokePreview.
  destruct (previewUrl (referenceImage st)) as [u|]; [|reflexivity].
  destruct (truthy u); reflexivity.
Qed.

Lemma removeImage_run (st : State) :
  removeImage st =
  (match previewUrl (referenceImage st) with
   | Some u => if truthy u then [RevokeObjectURL u] else []
   | None => []
   end ++ [SetReferenceImage noImage], Normal tt).
Proof.
  unfold removeImage. rewrite revokePreview_run. reflexivity.
Qed.

Lemma handleImageChange_run (env : Env) (st : State) (f : File) :
  fileReaderError env f = None ->
  handleImageChange env st (Some f) =
  (events (revokePreview st)
   ++ [CreateObjectURL (blob_of_file f); ReadAsDataURL f;
       SetReferenceImage
         {| file := Some f;
            previewUrl := Some (lit "blob:" ++ objectId env (blob_of_file f));
            base64 := nth_error (split comma (readAsDataURL f)) 1 |}],
   Normal tt).
Proof.
  intros Hread. unfold handleImageChange, fileToBase64, createObjectURL.
  rewrite revokePreview_run, Hread. reflexivity.
Qed.

Lemma attached_image (env : Env) (st : State) (f : File) :
  fileReaderError env f = None ->
  referenceImage (state_after st (handleImageChange env st (Some f))) =
  {| file := Some f;
     previewUrl := Some (lit "blob:" ++ objectId env (blob_of_file f));
     base64 := nth_error (split comma (readAsDataURL f)) 1 |}.
Proof.
  intros Hread. rewrite (handleImageChange_run env st f Hread).
  unfold state_after. cbn [events fst]. rewrite run_state_app.
  rewrite (run_state_quiet st (events (revokePreview st))); [reflexivity|].
  rewrite revokePreview_run. cbn [events fst].
  destruct (previewUrl (referenceImage st)) as [u|]; [|reflexivity].
  destruct (truthy u); reflexivity.
Qed.

(** C9.  [removeImage] completes and leaves the three image fields [null].
    When there is a preview URL it first revokes that URL, and makes no
    other call; when there is none it makes the setter call only.  After a
    file has been attached by [handleImageChange] there is a preview URL,
    the object URL created for that file, and it is the one revoked. *)
Theorem removeImage_releases_and_clears (env : Env) (st : State) (f : File) :
  completion (removeImage st) = Normal tt /\
  referenceImage (state_after st (removeImage st))
  = {| file := None; previewUrl := None; base64 := None |} /\
  (forall u,
     previewUrl (referenceImage st) = Some u -> truthy u = true ->
     events (removeImage st) = [RevokeObjectURL u; SetReferenceImage noImage]) /\
  (previewUrl (referenceImage st) = None ->
   events (removeImage st) = [SetReferenceImage noImage]) /\
  (fileReaderError env f = None ->
   events (removeImage (state_after st (handleImageChange env st (Some f))))
   = [RevokeObjectURL (lit "blob:" ++ objectId env (blob_of_file f));
      SetReferenceImage noImage]).
Proof.
  rewrite removeImage_run. unfold state_after. cbn [events completion fst snd].
  repeat apply conj.
  - reflexivity.
  - rewrite run_state_app.
    rewrite (run_state_quiet st); [reflexivity|].
    destruct (previewUrl (referenceImage st)) as [u|]; [|reflexivity].
    destruct (truthy u); reflexivity.
  - intros u -> ->. reflexivity.
  - intros ->. reflexivity.
  - intros Hread. rewrite removeImage_run.
    pose proof (attached_image env st f Hread) as Himg.
    unfold state_after in Himg. rewrite Himg. reflexivity.
Qed.

Lemma removeImage_releases_and_clears_witness :
  events (removeImage
            (state_after Scenario.ready
               (handleImageChange
                  (Scenario.service 0 (Scenario.finished None)
                     (Fulfilled Scenario.okResponse))
                  Scenario.ready (Some Scenario.png10))))
  = [RevokeObjectURL (lit "blob:https://app.test/0001");
     SetReferenceImage noImage].
Proof.
  apply (removeImage_releases_and_clears
           (Scenario.service 0 (Scenario.finished None)
              (Fulfilled Scenario.okResponse))
           Scenario.ready Scenario.png10).
  reflexivity.
Defined.

(** ** What is submitted *)

Lemma handler_filter (env : Env) (fuel : nat) (st : State)
    (Q : Event -> bool) :
  (forall ev, is_bookkeeping ev = true -> Q ev = false) ->
  rejected st = false ->
  filter Q (events (handleGenerateVideo env fuel st))
  = filter Q (events (attempt env fuel st)).
Proof.
  intros HQ Hacc. rewrite (handleGenerateVideo_run env fuel st Hacc).
  assert (Hpro : filter Q prologue = []).
  { unfold prologue. cbn [filter]. rewrite !HQ by reflexivity. reflexivity. }
  destruct (attempt env fuel st) as [tr [u|e|]]; cbn [events fst];
    rewrite !filter_app, Hpro; cbn [app].
  - cbn [filter]. rewrite HQ by reflexivity. apply app_nil_r.
  - rewrite epilogue_filter; [apply app_nil_r | | apply HQ; reflexivity].
    intros ev H. apply HQ. revert H. clear. revert ev. by_event.
  - reflexivity.
Qed.

Lemma attempt_submission (env : Env) (fuel : nat) (st : State) :
  newGoogleGenAI env (API_KEY env) = Fulfilled tt ->
  filter is_submission (events (attempt env fuel st))
  = [GenerateVideos (buildPayload st)].
Proof.
  intros Hnew.
  assert (Hp : forall o ptr c, pollLoop env fuel 0 o = (ptr, c) ->
                 filter is_submission ptr = []).
  { intros o ptr c H. apply (filter_none _ is_poll_event).
    - intros []; cbn; congruence.
    - change ptr with (events (ptr, c)). rewrite <- H. apply pollLoop_events. }
  destruct (attempt_outcome env fuel st); try congruence;
    cbn [events fst filter is_submission];
    rewrite ?filter_app;
    repeat match goal with
           | Hpoll : pollLoop _ _ _ _ = (_, _) |- _ =>
               rewrite (Hp _ _ _ Hpoll); clear Hpoll
           end;
    reflexivity.
Qed.

Lemma buildPayload_image (st : State) :
  image (buildPayload st) =
  match base64 (referenceImage st), file (referenceImage st) with
  | Some b64, Some f =>
      if truthy b64
      then Some {| imageBytes := b64; mimeType := type f |}
      else None
  | _, _ => None
  end.
Proof.
  unfold buildPayload.
  destruct (base64 (referenceImage st)) as [b64|],
           (file (referenceImage st)) as [f|]; try reflexivity.
  destruct (truthy b64); reflexivity.
Qed.

(** C7, as the code has it.  The payload passed to [generateVideos] is the
    one built from the state at submission.  After a file whose content is
    not empty and whose MIME type contains no comma has been attached, that
    payload has an [image] field: its [imageBytes] is the base64 text of
    the file's bytes (what follows the comma of the data URL) and its
    [mimeType] is the file's type.  Without a reference image the payload
    has no [image] field, and neither has it when the attached file is
    empty. *)
Theorem reference_image_in_payload (env : Env) (fuel : nat) (st : State)
    (f : File) :
  (rejected st = false ->
   newGoogleGenAI env (API_KEY env) = Fulfilled tt ->
   filter is_submission (events (handleGenerateVideo env fuel st))
   = [GenerateVideos (buildPayload st)]) /\
  (fileReaderError env f = None ->
   no_comma (type f) = true ->
   bytes f <> [] ->
   image (buildPayload (state_after st (handleImageChange env st (Some f))))
   = Some {| imageBytes := Base64.encode (bytes f); mimeType := type f |}) /\
  (referenceImage st = noImage -> image (buildPayload st) = None) /\
  (fileReaderError env f = None ->
   no_comma (type f) = true ->
   bytes f = [] ->
   image (buildPayload (state_after st (handleImageChange env st (Some f))))
   = None).
Proof.
  repeat apply conj.
  - intros Hacc Hnew.
    rewrite (handler_filter env fuel st is_submission); [| |exact Hacc].
    + exact (attempt_submission env fuel st Hnew).
    + intros []; cbn; congruence.
  - intros Hread Hty Hbytes.
    rewrite buildPayload_image, (attached_image env st f Hread).
    cbn [base64 file]. rewrite (readAsDataURL_split f Hty), encode_truthy.
    destruct (bytes f); [contradiction | reflexivity].
  - intros Himg. rewrite buildPayload_image, Himg. reflexivity.
  - intros Hread Hty Hbytes.
    rewrite buildPayload_image, (attached_image env st f Hread).
    cbn [base64 file]. rewrite (readAsDataURL_split f Hty), encode_truthy.
    rewrite Hbytes. reflexivity.
Qed.

Lemma reference_image_in_payload_witness :
  fileReaderError (Scenario.service 1 (Scenario.finished (Some Scenario.videoUri))
                     (Fulfilled Scenario.okResponse)) Scenario.png10 = None /\
  no_comma (type Scenario.png10) = true /\
  bytes Scenario.png10 <> [] /\
  List.length (bytes Scenario.png10) = 10 /\
  image (buildPayload
           (state_after Scenario.ready
              (handleImageChange
                 (Scenario.service 1 (Scenario.finished (Some Scenario.videoUri))
                    (Fulfilled Scenario.okResponse))
                 Scenario.ready (Some Scenario.png10))))
  = Some {| imageBytes := lit "iVBORw0KGgoAAQ=="; mimeType := lit "image/png" |}.
Proof.
  split; [reflexivity|]. split; [reflexivity|]. split; [discriminate|].
  split; [reflexivity|].
  apply (proj1 (proj2 (reference_image_in_payload
                         (Scenario.service 1
                            (Scenario.finished (Some Scenario.videoUri))
                            (Fulfilled Scenario.okResponse))
                         1 Scenario.ready Scenario.png10)));
    [reflexivity | reflexivity | discriminate].
Defined.

(** C7 as the specification words it fails: with an empty PNG file
    attached (the state holds the file and its preview URL) the payload
    submitted has no [image] field. *)
Lemma empty_reference_image_is_dropped :
  file (referenceImage
          (state_after Scenario.ready
             (handleImageChange
                (Scenario.service 1 (Scenario.finished (Some Scenario.videoUri))
                   (Fulfilled Scenario.okResponse))
                Scenario.ready (Some Scenario.emptyPng))))
  = Some Scenario.emptyPng /\
  filter is_submission
    (events
       (handleGenerateVideo
          (Scenario.service 1 (Scenario.finished (Some Scenario.videoUri))
             (Fulfilled Scenario.okResponse))
          1
          (state_after Scenario.ready
             (handleImageChange
                (Scenario.service 1 (Scenario.finished (Some Scenario.videoUri))
                   (Fulfilled Scenario.okResponse))
                Scenario.ready (Some Scenario.emptyPng)))))
  = [GenerateVideos
       {| model := lit "veo-3.1-fast-generate-preview";
          payload_prompt := prompt Scenario.ready;
          config := {| numberOfVideos := 1;
                       config_resolution := Res1080p;
                       config_aspectRatio := Ratio16x9 |};
          image := None |}].
Proof.
  split; reflexivity.
Qed.

(** ** The credential check *)

Lemma checkApiKey_run (env : Env) :
  checkApiKey env =
  if aistudio env
  then match hasSelectedApiKey env with
       | Fulfilled b => ([HasSelectedApiKey; SetHasApiKey b], Normal tt)
       | Rejected e =>
           ([HasSelectedApiKey; ConsoleError e; SetHasApiKey false], Normal tt)
       end
  else ([SetHasApiKey false], Normal tt).
Proof.
  unfold checkApiKey.
  destruct (aistudio env); [|reflexivity].
  destruct (hasSelectedApiKey env) as [[]|e]; reflexivity.
Qed.

Lemma handler_makes_no_credential_query (env : Env) (fuel : nat) (st : State) :
  filter is_credential_query (events (handleGenerateVideo env fuel st)) = [].
Proof.
  destruct (rejected st) eqn:Hrej.
  - rewrite (handleGenerateVideo_rejected env fuel st Hrej). reflexivity.
  - rewrite (handler_filter env fuel st is_credential_query); [| |exact Hrej].
    + apply attempt_requests_once.
    + intros []; cbn; congruence.
Qed.

(** C8, as the code has it.  [checkApiKey] runs when the component mounts,
    its only call site; when [window.aistudio] is there it asks the host
    once whether a key is selected, and [hasApiKey] becomes the answer
    (false when the object is missing or the query fails).  A run of
    [handleGenerateVideo], failed or not, never makes that query: a failed
    attempt leaves [hasApiKey] as it was, except that it sets it to false
    when the error is the "Requested entity was not found." one. *)
Theorem credential_check_only_at_startup :
  (forall env,
     completion (mount env) = Normal tt /\
     filter is_credential_query (events (mount env))
     = (if aistudio env then [HasSelectedApiKey] else [])) /\
  (forall env st,
     hasApiKey (state_after st (mount env))
     = (aistudio env
        && match hasSelectedApiKey env with
           | Fulfilled b => b
           | Rejected _ => false
           end)) /\
  (forall env fuel st,
     filter is_credential_query (events (handleGenerateVideo env fuel st)) = []) /\
  (forall env fuel st tr e,
     rejected st = false ->
     attempt env fuel st = (tr, Throw e) ->
     hasApiKey (state_after st (handleGenerateVideo env fuel st))
     = if isKeyError e then false else hasApiKey st).
Proof.
  repeat apply conj.
  - intros env. unfold mount. rewrite checkApiKey_run.
    destruct (aistudio env); [|split; reflexivity].
    destruct (hasSelectedApiKey env); split; reflexivity.
  - intros env st. unfold mount. rewrite checkApiKey_run.
    destruct (aistudio env); [|reflexivity].
    destruct (hasSelectedApiKey env); reflexivity.
  - exact handler_makes_no_credential_query.
  - intros env fuel st tr e Hacc E.
    destruct (failed_run env fuel st tr e Hacc E) as (_ & _ & ->).
    reflexivity.
Qed.

Lemma credential_check_only_at_startup_witness :
  filter is_credential_query
    (events (mount (Scenario.refusing Scenario.quotaError)))
  = [HasSelectedApiKey] /\
  filter is_credential_query
    (events (handleGenerateVideo (Scenario.refusing Scenario.quotaError)
               4 Scenario.ready))
  = [].
Proof.
  split.
  - apply (proj1 credential_check_only_at_startup
             (Scenario.refusing Scenario.quotaError)).
  - apply (proj1 (proj2 (proj2 credential_check_only_at_startup))).
Defined.

(** C8 as the specification words it fails: a generation attempt that
    fails (the submission is rejected) is not followed by any credential
    query. *)
Lemma no_credential_check_after_failure :
  completion (attempt (Scenario.refusing Scenario.quotaError) 4 Scenario.ready)
  = Throw Scenario.quotaError /\
  handleGenerateVideo (Scenario.refusing Scenario.quotaError) 4 Scenario.ready
  = ([SetIsLoading true; SetError None; SetGeneratedVideoUrl None;
      SetLoadingMessage (lit "Summoning digital muses...");
      NewGoogleGenAI (Some (lit "KEY"));
      GenerateVideos (buildPayload Scenario.ready);
      ConsoleError Scenario.quotaError;
      SetError (Some (lit "Quota exceeded for this project."));
      SetIsLoading false],
     Normal tt) /\
  ~ In HasSelectedApiKey
      (events (handleGenerateVideo (Scenario.refusing Scenario.quotaError)
                 4 Scenario.ready)).
Proof.
  repeat split.
  cbn. intros H. repeat (destruct H as [H|H]; [discriminate|]). exact H.
Qed.

Lemma error_and_video_never_coexist_witness :
  rejected Scenario.ready = false /\
  exclusive
    (state_after Scenario.ready
       (handleGenerateVideo
          (Scenario.service 2 (Scenario.finished (Some Scenario.videoUri))
             (Fulfilled Scenario.okResponse)) 2 Scenario.ready)) /\
  generatedVideoUrl
    (state_after Scenario.ready
       (handleGenerateVideo
          (Scenario.service 2 (Scenario.finished (Some Scenario.videoUri))
             (Fulfilled Scenario.okResponse)) 2 Scenario.ready))
  = Some (lit "blob:https://app.test/0001").
Proof.
  split; [reflexivity|]. split; [|reflexivity].
  apply (proj1 (proj2 (error_and_video_never_coexist
                         (Scenario.service 2
                            (Scenario.finished (Some Scenario.videoUri))
                            (Fulfilled Scenario.okResponse))
                         2 Scenario.ready eq_refl)))
    with (q := @nil Event).
  - left. reflexivity.
  - rewrite app_nil_r. reflexivity.
Defined.

(** ** Runs on concrete inputs *)

Example encode_Man : Base64.encode [x4d; x61; x6e] = lit "TWFu".
Proof. reflexivity. Qed.

Example encode_Ma : Base64.encode [x4d; x61] = lit "TWE=".
Proof. reflexivity. Qed.

Example encode_M : Base64.encode [x4d] = lit "TQ==".
Proof. reflexivity. Qed.

Example trim_spaces : trim (lit "  a b  ") = lit "a b".
Proof. reflexivity. Qed.

Example split_data_url :
  split comma (readAsDataURL Scenario.png10)
  = [lit "data:image/png;base64"; lit "iVBORw0KGgoAAQ=="].
Proof. reflexivity. Qed.

Example includes_entity :
  includes (lit "404 NOT_FOUND: Requested entity was not found.")
    ENTITY_NOT_FOUND = true.
Proof. reflexivity. Qed.

(** A submission that succeeds after two polls. *)
Example successful_run :
  handleGenerateVideo
    (Scenario.service 2 (Scenario.finished (Some Scenario.videoUri))
       (Fulfilled Scenario.okResponse)) 2 Scenario.ready
  = ([SetIsLoading true; SetError None; SetGeneratedVideoUrl None;
      SetLoadingMessage (lit "Summoning digital muses...");
      NewGoogleGenAI (Some (lit "KEY"));
      GenerateVideos (buildPayload Scenario.ready);
      SetTimeout 10000; GetVideosOperation Scenario.running;
      SetTimeout 10000; GetVideosOperation Scenario.running;
      Fetch (lit "https://example.test/v1/files/abc:download?alt=media&key=KEY");
      ReadBlob;
      CreateObjectURL Scenario.mp4;
      SetGeneratedVideoUrl (Some (lit "blob:https://app.test/0001"));
      SetIsLoading false],
     Normal tt).
Proof. reflexivity. Qed.

(** The same submission, seen before the service has finished. *)
Example waiting_run_after_one_poll :
  handleGenerateVideo
    (Scenario.service 2 (Scenario.finished (Some Scenario.videoUri))
       (Fulfilled Scenario.okResponse)) 1 Scenario.ready
  = ([SetIsLoading true; SetError None; SetGeneratedVideoUrl None;
      SetLoadingMessage (lit "Summoning digital muses...");
      NewGoogleGenAI (Some (lit "KEY"));
      GenerateVideos (buildPayload Scenario.ready);
      SetTimeout 10000; GetVideosOperation Scenario.running],
     Waiting).
Proof. reflexivity. Qed.

Example blank_prompt_rejected :
  handleGenerateVideo
    (Scenario.service 2 (Scenario.finished (Some Scenario.videoUri))
       (Fulfilled Scenario.okResponse)) 2 Scenario.blank
  = ([], Normal tt).
Proof. reflexivity. Qed.

(** ** More time never changes a finished run *)

Lemma pollLoop_fuel_mono (env : Env) (fuel fuel' i : nat) (o : Operation)
    (tr : list Event) (c : Completion Operation) :
  pollLoop env fuel i o = (tr, c) ->
  c <> Waiting ->
  fuel <= fuel' ->
  pollLoop env fuel' i o = (tr, c).
Proof.
  revert fuel' i o tr c.
  induction fuel as [|fuel IH]; intros fuel' i o tr c E Hc Hle.
  - cbn [pollLoop] in E. destruct (done o) eqn:Hd.
    + rewrite (pollLoop_done_now env fuel' i o Hd). exact E.
    + injection E as <- <-. contradiction.
  - destruct (done o) eqn:Hd.
    + rewrite (pollLoop_done_now env (S fuel) i o Hd) in E.
      rewrite (pollLoop_done_now env fuel' i o Hd). exact E.
    + destruct fuel' as [|fuel']; [lia|].
      destruct (getVideosOperation env i o) as [o1|e] eqn:Hget.
      * rewrite (pollLoop_step_fulfilled env fuel i o o1 Hd Hget) in E.
        rewrite (pollLoop_step_fulfilled env fuel' i o o1 Hd Hget).
        destruct (pollLoop env fuel (S i) o1) as [tr1 c1] eqn:E1.
        cbn [events completion fst snd] in E. injection E as <- <-.
        rewrite (IH fuel' (S i) o1 tr1 c1 E1 Hc) by lia.
        reflexivity.
      * rewrite (pollLoop_step_rejected env fuel i o e Hd Hget) in E.
        rewrite (pollLoop_step_rejected env fuel' i o e Hd Hget). exact E.
Qed.

Lemma attempt_fuel_mono (env : Env) (fuel fuel' : nat) (st : State) :
  completion (attempt env fuel st) <> Waiting ->
  fuel <= fuel' ->
  attempt env fuel' st = attempt env fuel st.
Proof.
  intros Hc Hle. unfold attempt in *.
  destruct (newGoogleGenAI env (API_KEY env)) as [[]|e]; [|reflexivity].
  destruct (generateVideos env (buildPayload st)) as [o|e]; [|reflexivity].
  destruct (pollLoop env fuel 0 o) as [ptr c] eqn:E.
  assert (Hw : c <> Waiting).
  { intros ->. apply Hc. cbn. rewrite E. reflexivity. }
  cbn. rewrite E, (pollLoop_fuel_mono env fuel fuel' 0 o ptr c E Hw Hle).
  reflexivity.
Qed.

Lemma handleGenerateVideo_fuel_mono (env : Env) (fuel fuel' : nat)
    (st : State) :
  completion (handleGenerateVideo env fuel st) <> Waiting ->
  fuel <= fuel' ->
  handleGenerateVideo env fuel' st = handleGenerateVideo env fuel st.
Proof.
  intros Hc Hle.
  destruct (rejected st) eqn:Hrej.
  - rewrite !handleGenerateVideo_rejected by exact Hrej. reflexivity.
  - rewrite (handleGenerateVideo_run env fuel st Hrej) in Hc.
    rewrite !handleGenerateVideo_run by exact Hrej.
    rewrite (attempt_fuel_mono env fuel fuel' st); [reflexivity | | exact Hle].
    destruct (attempt env fuel st) as [tr [u|e|]]; cbn; try discriminate.
    exact Hc.
Qed.

(** ** A generation that succeeds *)

Lemma success_attempt (env : Env) (fuel : nat) (st : State)
    (o : Operation) (ptr : list Event) (o' : Operation) (r : FetchResponse)
    (b : Blob) :
  newGoogleGenAI env (API_KEY env) = Fulfilled tt ->
  generateVideos env (buildPayload st) = Fulfilled o ->
  pollLoop env fuel 0 o = (ptr, Normal o') ->
  truthy_opt (downloadLink o') = true ->
  fetch env (interpolate (downloadLink o') ++ lit "&key="
             ++ interpolate (API_KEY env)) = Fulfilled r ->
  ok r = true ->
  blob r = Fulfilled b ->
  attempt env fuel st =
  (NewGoogleGenAI (API_KEY env) :: GenerateVideos (buildPayload st)
     :: ptr ++ [Fetch (interpolate (downloadLink o') ++ lit "&key="
                       ++ interpolate (API_KEY env));
                ReadBlob; CreateObjectURL b;
                SetGeneratedVideoUrl (Some (lit "blob:" ++ objectId env b))],
   Normal tt).
Proof.
  intros Hnew Hgen Hpoll Hlink Hfetch Hok Hblob.
  pose proof (attempt_outcome env fuel st) as Ho.
  inversion Ho; subst; try congruence.
  assert (o0 = o) by congruence. subst o0.
  assert (ptr0 = ptr /\ o'0 = o') as [-> ->] by (split; congruence).
  assert (r0 = r) by congruence. subst r0.
  assert (b0 = b) by congruence. subst b0. reflexivity.
Qed.

(** X1.  When the submission is accepted, the polls lead to a done
    operation with a video URI, the media fetch is [ok] and its body can be
    read, the run, given the time for those polls, completes in the
    succeeded state: the video handle is the object URL made for the
    fetched body, there is no error message, the busy flag is cleared, and
    the media was fetched from the URI followed by [&key=] and the API
    key. *)
Theorem generation_succeeds (env : Env) (fuel : nat) (st : State)
    (o : Operation) (os : list Operation) (o' : Operation)
    (r : FetchResponse) (b : Blob) :
  rejected st = false ->
  newGoogleGenAI env (API_KEY env) = Fulfilled tt ->
  generateVideos env (buildPayload st) = Fulfilled o ->
  Polled env 0 o os o' ->
  done o' = true ->
  List.length os <= fuel ->
  truthy_opt (downloadLink o') = true ->
  fetch env (interpolate (downloadLink o') ++ lit "&key="
             ++ interpolate (API_KEY env)) = Fulfilled r ->
  ok r = true ->
  blob r = Fulfilled b ->
  handleGenerateVideo env fuel st =
  (prologue
   ++ (NewGoogleGenAI (API_KEY env) :: GenerateVideos (buildPayload st)
       :: poll_trace os
       ++ [Fetch (interpolate (downloadLink o') ++ lit "&key="
                  ++ interpolate (API_KEY env));
           ReadBlob; CreateObjectURL b;
           SetGeneratedVideoUrl (Some (lit "blob:" ++ objectId env b))])
   ++ [SetIsLoading false],
   Normal tt) /\
  generatedVideoUrl (state_after st (handleGenerateVideo env fuel st))
  = Some (lit "blob:" ++ objectId env b) /\
  error (state_after st (handleGenerateVideo env fuel st)) = None /\
  isLoading (state_after st (handleGenerateVideo env fuel st)) = false.
Proof.
  intros Hacc Hnew Hgen Hpolled Hdone Hfuel Hlink Hfetch Hok Hblob.
  assert (Hpoll : pollLoop env fuel 0 o = (poll_trace os, Normal o')).
  { apply pollLoop_returns_iff. exists os. auto. }
  pose proof (success_attempt env fuel st o _ o' r b
                Hnew Hgen Hpoll Hlink Hfetch Hok Hblob) as E.
  pose proof (pollLoop_quiet env fuel 0 o _ _ Hpoll) as Hq.
  rewrite (handleGenerateVideo_run env fuel st Hacc), E.
  split; [reflexivity|].
  unfold state_after. cbn [events fst].
  change (NewGoogleGenAI (API_KEY env) :: GenerateVideos (buildPayload st)
          :: poll_trace os ++ ?l)
    with ([NewGoogleGenAI (API_KEY env); GenerateVideos (buildPayload st)]
          ++ poll_trace os ++ l).
  rewrite !run_state_app, (run_state_quiet _ (poll_trace os) Hq).
  repeat split.
Qed.

Lemma generation_succeeds_witness :
  rejected Scenario.ready = false /\
  Polled (Scenario.service 2 (Scenario.finished (Some Scenario.videoUri))
            (Fulfilled Scenario.okResponse))
    0 Scenario.running [Scenario.running; Scenario.running]
    (Scenario.finished (Some Scenario.videoUri)) /\
  generatedVideoUrl
    (state_after Scenario.ready
       (handleGenerateVideo
          (Scenario.service 2 (Scenario.finished (Some Scenario.videoUri))
             (Fulfilled Scenario.okResponse)) 2 Scenario.ready))
  = Some (lit "blob:https://app.test/0001").
Proof.
  assert (Hp : Polled
                 (Scenario.service 2 (Scenario.finished (Some Scenario.videoUri))
                    (Fulfilled Scenario.okResponse))
                 0 Scenario.running [Scenario.running; Scenario.running]
                 (Scenario.finished (Some Scenario.videoUri)))
    by (repeat (econstructor; try reflexivity)).
  split; [reflexivity|]. split; [exact Hp|].
  apply (generation_succeeds
           (Scenario.service 2 (Scenario.finished (Some Scenario.videoUri))
              (Fulfilled Scenario.okResponse)) 2 Scenario.ready
           Scenario.running [Scenario.running; Scenario.running]
           (Scenario.finished (Some Scenario.videoUri))
           Scenario.okResponse Scenario.mp4);
    try reflexivity; exact Hp.
Defined.

(** ** Selecting a key *)



(** ** The page and the handlers *)

Lemma rejected_disabled (st : State) :
  disabled (renderGenerateButton st) = rejected st.
Proof. unfold rejected. cbn. apply orb_comm. Qed.

(** X3.  The generate button is disabled exactly when [handleGenerateVideo]
    would return at its guard, although the two conditions are written
    separately (lines 253 and 123).  So a click the page offers always
    starts an attempt with the four opening setter calls, and the handler
    does nothing in the states where the button is disabled. *)
Theorem generate_button_matches_guard (env : Env) (fuel : nat) (st : State) :
  disabled (generateButton (mainContent st)) = rejected st /\
  offered (render st) ClickGenerate = hasApiKey st && negb (rejected st) /\
  (offered (render st) ClickGenerate = true ->
   exists rest, events (handleGenerateVideo env fuel st) = prologue ++ rest) /\
  (disabled (generateButton (mainContent st)) = true ->
   handleGenerateVideo env fuel st = ([], Normal tt)).
Proof.
  repeat apply conj.
  - apply rejected_disabled.
  - unfold render, offered. destruct (hasApiKey st); [|reflexivity].
    cbn [negb andb mainContent generateButton].
    rewrite rejected_disabled. reflexivity.
  - unfold render, offered. destruct (hasApiKey st); [|discriminate].
    cbn [negb mainContent generateButton]. rewrite rejected_disabled.
    intros H. apply negb_true_iff in H.
    rewrite (handleGenerateVideo_run env fuel st H).
    destruct (attempt env fuel st) as [tr [u|e|]]; eexists; reflexivity.
  - cbn [mainContent generateButton]. rewrite rejected_disabled.
    apply handleGenerateVideo_rejected.
Qed.

Lemma generate_button_matches_guard_witness :
  offered (render Scenario.ready) ClickGenerate = true /\
  exists rest,
    events (handleGenerateVideo (Scenario.refusing Scenario.quotaError)
              3 Scenario.ready) = prologue ++ rest.
Proof.
  split; [reflexivity|].
  apply (proj1 (proj2 (proj2 (generate_button_matches_guard
                                (Scenario.refusing Scenario.quotaError)
                                3 Scenario.ready)))).
  reflexivity.
Defined.

(** X4.  What the output panel shows follows the run of an accepted
    submission: at every point inside the run it shows the processing
    panel, whatever error or video an earlier run left; after a run whose
    [try] block threw it shows the error panel with the surfaced message;
    after a run that succeeded it shows the video whose source is the
    object URL made for the fetched body. *)
Theorem output_panel_follows_run (env : Env) (fuel : nat) (st : State) :
  rejected st = false ->
  (forall p q,
     events (handleGenerateVideo env fuel st) = p ++ q ->
     p <> [] ->
     q <> [] \/ completion (handleGenerateVideo env fuel st) = Waiting ->
     renderOutput (run_state st p)
     = Processing (loadingMessage (run_state st p))) /\
  (forall e,
     completion (attempt env fuel st) = Throw e ->
     renderOutput (state_after st (handleGenerateVideo env fuel st))
     = ErrorPanel (surface e)) /\
  (forall u,
     completion (attempt env fuel st) = Normal u ->
     exists b,
       renderOutput (state_after st (handleGenerateVideo env fuel st))
       = VideoPanel (lit "blob:" ++ objectId env b)).
Proof.
  intros Hacc. repeat apply conj.
  - intros p q E Hp Hq. unfold renderOutput.
    rewrite (in_flight_isLoading env fuel st p q Hacc E Hp Hq). reflexivity.
  - intros e Hc.
    destruct (attempt env fuel st) as [tr c] eqn:E. cbn in Hc. subst c.
    destruct (failed_run env fuel st tr e Hacc E) as (_ & _ & ->).
    unfold renderOutput, failed_state.
    cbn [isLoading error truthy_opt interpolate].
    rewrite surface_truthy. reflexivity.
  - intros u Hc.
    destruct (attempt env fuel st) as [tr c] eqn:E. cbn in Hc. subst c.
    destruct (succeeded_run env fuel st tr u Hacc E)
      as (_ & tr' & b & _ & _ & ->).
    exists b. reflexivity.
Qed.

Lemma output_panel_follows_run_witness :
  rejected Scenario.ready = false /\
  renderOutput
    (state_after Scenario.ready
       (handleGenerateVideo (Scenario.refusing Scenario.quotaError)
          3 Scenario.ready))
  = ErrorPanel (lit "Quota exceeded for this project.").
Proof.
  split; [reflexivity|].
  apply (proj1 (proj2 (output_panel_follows_run
                         (Scenario.refusing Scenario.quotaError)
                         3 Scenario.ready eq_refl))
           Scenario.quotaError).
  reflexivity.
Defined.

(** X5.  After a failed attempt whose error is the "Requested entity was
    not found." one, the page shows the key prompt in place of the main
    content, so the error message, though set, is not on the page.  Once
    the key selection has been opened and its call resolves, the main
    content is back and shows that credential-invalid message, which
    [handleSelectKey] does not clear.  After any other failed attempt the
    page keeps showing the main content, with the error panel. *)
Theorem key_error_shows_key_prompt (env : Env) (fuel : nat) (st : State)
    (tr : list Event) (e : Error) :
  rejected st = false ->
  attempt env fuel st = (tr, Throw e) ->
  (isKeyError e = true ->
   render (state_after st (handleGenerateVideo env fuel st)) = KeyRequired /\
   forall env',
     aistudio env' = true ->
     openSelectKey env' = Fulfilled tt ->
     exists c,
       render (state_after
                 (state_after st (handleGenerateVideo env fuel st))
                 (handleSelectKey env')) = Main c /\
       output c = ErrorPanel KEY_INVALID) /\
  (isKeyError e = false ->
   hasApiKey st = true ->
   exists c,
     render (state_after st (handleGenerateVideo env fuel st)) = Main c /\
     output c = ErrorPanel (rawMessage e)).
Proof.
  intros Hacc E.
  destruct (failed_run env fuel st tr e Hacc E) as (_ & _ & ->).
  unfold failed_state, surface. split.
  - intros ->. split; [reflexivity|].
    intros env' Hai Hopen. unfold handleSelectKey. rewrite Hai, Hopen.
    eexists. split; reflexivity.
  - intros Hk Hhas. rewrite Hk, Hhas. unfold render. cbn [hasApiKey negb].
    eexists. split; [reflexivity|].
    cbn [mainContent output]. unfold renderOutput.
    cbn [isLoading error truthy_opt interpolate].
    pose proof (surface_truthy e) as Ht. unfold surface in Ht.
    rewrite Hk in Ht. rewrite Ht. reflexivity.
Qed.

Lemma key_error_shows_key_prompt_witness :
  rejected Scenario.ready = false /\
  attempt (Scenario.refusing Scenario.entityError) 4 Scenario.ready
  = ([NewGoogleGenAI (Some (lit "KEY"));
      GenerateVideos (buildPayload Scenario.ready)],
     Throw Scenario.entityError) /\
  isKeyError Scenario.entityError = true /\
  render (state_after Scenario.ready
            (handleGenerateVideo (Scenario.refusing Scenario.entityError)
               4 Scenario.ready)) = KeyRequired.
Proof.
  split; [reflexivity|]. split; [reflexivity|]. split; [reflexivity|].
  apply (proj1 (key_error_shows_key_prompt
                  (Scenario.refusing Scenario.entityError) 4 Scenario.ready
                  [NewGoogleGenAI (Some (lit "KEY"));
                   GenerateVideos (buildPayload Scenario.ready)]
                  Scenario.entityError eq_refl eq_refl)).
  reflexivity.
Defined.

(** X6.  [handleSelectKey] can only be reached from the key prompt, that
    is when [hasApiKey] is false.  When it fails there, the message it sets
    is not shown: the page still shows the key prompt, which has no place
    for the error. *)
Theorem select_key_failure_is_not_shown (env : Env) (st : State) (e : Error) :
  offered (render st) ClickSelectKey = true ->
  (aistudio env = true /\ openSelectKey env = Rejected e) \/
  (aistudio env = false) ->
  error (state_after st (handleSelectKey env))
  = Some (lit "Could not open the API key selection dialog. Please try again.") /\
  render (state_after st (handleSelectKey env)) = KeyRequired.
Proof.
  intros Hoff Hfail.
  assert (Hhas : hasApiKey st = false).
  { unfold render in Hoff. destruct (hasApiKey st); [discriminate|reflexivity]. }
  unfold handleSelectKey, state_after, render.
  destruct Hfail as [[-> ->]| ->]; cbn; rewrite Hhas; split; reflexivity.
Qed.

Lemma select_key_failure_is_not_shown_witness :
  offered (render initialState) ClickSelectKey = true /\
  render (state_after initialState
            (handleSelectKey
               {| API_KEY := None; aistudio := false;
                  hasSelectedApiKey := Fulfilled false;
                  openSelectKey := Fulfilled tt;
                  fileReaderError := fun _ => None;
                  objectId := fun _ => lit "0";
                  newGoogleGenAI := fun _ => Fulfilled tt;
                  generateVideos := fun _ => Rejected TypeError;
                  getVideosOperation := fun _ _ => Rejected TypeError;
                  fetch := fun _ => Rejected TypeError |}))
  = KeyRequired.
Proof.
  split; [reflexivity|].
  apply (select_key_failure_is_not_shown
           {| API_KEY := None; aistudio := false;
              hasSelectedApiKey := Fulfilled false;
              openSelectKey := Fulfilled tt;
              fileReaderError := fun _ => None;
              objectId := fun _ => lit "0";
              newGoogleGenAI := fun _ => Fulfilled tt;
              generateVideos := fun _ => Rejected TypeError;
              getVideosOperation := fun _ _ => Rejected TypeError;
              fetch := fun _ => Rejected TypeError |}
           initialState TypeError);
    [reflexivity | right; reflexivity].
Defined.

(** ** Attaching and replacing the reference image *)

Lemma jsstring_eqb_refl (a : jsstring) : jsstring_eqb a a = true.
Proof.
  induction a as [|x a IH]; [reflexivity|].
  cbn [jsstring_eqb]. rewrite N.eqb_refl. exact IH.
Qed.

Lemma live_app (env : Env) (urls : list jsstring) (p q : list Event) :
  live env urls (p ++ q) = live env (live env urls p) q.
Proof.
  revert urls. induction p as [|ev p IH]; intros urls; [reflexivity|].
  destruct ev; cbn [app live]; apply IH.
Qed.

Lemma live_revokePreview (env : Env) (st : State) :
  live env (preview_urls st) (events (revokePreview st)) = [].
Proof.
  rewrite revokePreview_run. unfold preview_urls. cbn [events fst].
  destruct (previewUrl (referenceImage st)) as [u|]; [|reflexivity].
  destruct (truthy u); [|reflexivity].
  cbn [live remove_one]. rewrite jsstring_eqb_refl. reflexivity.
Qed.

(** X7.  [handleImageChange] does nothing when no file was picked.  With a
    file that can be read it completes: it revokes the preview URL the
    state holds, if any, then creates the object URL of the new file,
    reads the file, and sets the three image fields together, so that
    afterwards the state holds the file, its own preview URL and the text
    [fileToBase64] gave.  The page offers the file input only when there is
    no preview, and then no URL is revoked. *)
Theorem image_change_replaces_preview (env : Env) (st : State) (f : File) :
  handleImageChange env st None = ([], Normal tt) /\
  (fileReaderError env f = None ->
   handleImageChange env st (Some f) =
   (match previewUrl (referenceImage st) with
    | Some u => if truthy u then [RevokeObjectURL u] else []
    | None => []
    end
    ++ [CreateObjectURL (blob_of_file f); ReadAsDataURL f;
        SetReferenceImage
          {| file := Some f;
             previewUrl := Some (lit "blob:" ++ objectId env (blob_of_file f));
             base64 := nth_error (split comma (readAsDataURL f)) 1 |}],
    Normal tt) /\
   referenceImage (state_after st (handleImageChange env st (Some f)))
   = {| file := Some f;
        previewUrl := Some (lit "blob:" ++ objectId env (blob_of_file f));
        base64 := nth_error (split comma (readAsDataURL f)) 1 |} /\
   renderImageControl (state_after st (handleImageChange env st (Some f)))
   = ImagePreview (lit "blob:" ++ objectId env (blob_of_file f))) /\
  (offered (render st) PickFile = true ->
   filter is_revoke (events (handleImageChange env st (Some f))) = []).
Proof.
  repeat apply conj.
  - reflexivity.
  - intros Hread.
    rewrite (handleImageChange_run env st f Hread) at 1.
    rewrite revokePreview_run. cbn [events fst].
    split; [reflexivity|].
    unfold renderImageControl.
    rewrite (attached_image env st f Hread). split; reflexivity.
  - unfold render, offered. destruct (hasApiKey st); [|discriminate].
    cbn [negb mainContent imageControl]. unfold renderImageControl.
    destruct (truthy_opt (previewUrl (referenceImage st))) eqn:Ht;
      [discriminate|]. intros _.
    unfold handleImageChange, fileToBase64, createObjectURL.
    rewrite revokePreview_run.
    destruct (previewUrl (referenceImage st)) as [u|]; cbn in Ht;
      [rewrite Ht|]; destruct (fileReaderError env f); reflexivity.
Qed.

Lemma image_change_replaces_preview_witness :
  fileReaderError (Scenario.refusing Scenario.quotaError) Scenario.emptyPng
  = None /\
  filter is_revoke
    (events
       (handleImageChange (Scenario.refusing Scenario.quotaError)
          (state_after Scenario.ready
             (handleImageChange (Scenario.refusing Scenario.quotaError)
                Scenario.ready (Some Scenario.png10)))
          (Some Scenario.emptyPng)))
  = [RevokeObjectURL (lit "blob:https://app.test/0001")].
Proof.
  split; [reflexivity|].
  rewrite (proj1 (proj1 (proj2 (image_change_replaces_preview
                          (Scenario.refusing Scenario.quotaError)
                          (state_after Scenario.ready
                             (handleImageChange
                                (Scenario.refusing Scenario.quotaError)
                                Scenario.ready (Some Scenario.png10)))
                          Scenario.emptyPng)) eq_refl)).
  reflexivity.
Defined.

(** X8.  When the file cannot be read, [handleImageChange] ends with the
    reader's error and sets nothing, so the state is as before.  By then it
    has already revoked the preview URL the state holds and created an
    object URL for the new file: the preview the state still names is
    revoked, and the new URL, held nowhere, stays alive. *)
Theorem image_change_read_failure (env : Env) (st : State) (f : File)
    (e : Error) :
  fileReaderError env f = Some e ->
  completion (handleImageChange env st (Some f)) = Throw e /\
  state_after st (handleImageChange env st (Some f)) = st /\
  events (handleImageChange env st (Some f))
  = match previewUrl (referenceImage st) with
    | Some u => if truthy u then [RevokeObjectURL u] else []
    | None => []
    end
    ++ [CreateObjectURL (blob_of_file f); ReadAsDataURL f] /\
  live env (preview_urls st) (events (handleImageChange env st (Some f)))
  = [lit "blob:" ++ objectId env (blob_of_file f)].
Proof.
  intros Hread.
  assert (E : handleImageChange env st (Some f)
              = (events (revokePreview st)
                 ++ [CreateObjectURL (blob_of_file f); ReadAsDataURL f],
                 Throw e)).
  { unfold handleImageChange, fileToBase64, createObjectURL.
    rewrite revokePreview_run, Hread. reflexivity. }
  rewrite E. unfold state_after. cbn [events completion fst snd].
  repeat apply conj.
  - reflexivity.
  - apply run_state_quiet. unfold quiet. rewrite forallb_app.
    rewrite revokePreview_run. cbn [events fst].
    destruct (previewUrl (referenceImage st)) as [u|]; [|reflexivity].
    destruct (truthy u); reflexivity.
  - rewrite revokePreview_run. reflexivity.
  - rewrite live_app, live_revokePreview. reflexivity.
Qed.

Lemma image_change_read_failure_witness :
  fileReaderError
    {| API_KEY := None; aistudio := true;
       hasSelectedApiKey := Fulfilled true;
       openSelectKey := Fulfilled tt;
       fileReaderError := fun _ => Some Scenario.quotaError;
       objectId := fun _ => lit "7";
       newGoogleGenAI := fun _ => Fulfilled tt;
       generateVideos := fun _ => Rejected TypeError;
       getVideosOperation := fun _ _ => Rejected TypeError;
       fetch := fun _ => Rejected TypeError |}
    Scenario.png10 = Some Scenario.quotaError /\
  completion
    (handleImageChange
       {| API_KEY := None; aistudio := true;
          hasSelectedApiKey := Fulfilled true;
          openSelectKey := Fulfilled tt;
          fileReaderError := fun _ => Some Scenario.quotaError;
          objectId := fun _ => lit "7";
          newGoogleGenAI := fun _ => Fulfilled tt;
          generateVideos := fun _ => Rejected TypeError;
          getVideosOperation := fun _ _ => Rejected TypeError;
          fetch := fun _ => Rejected TypeError |}
       Scenario.ready (Some Scenario.png10))
  = Throw Scenario.quotaError.
Proof.
  split; [reflexivity|].
  apply (image_change_read_failure
           {| API_KEY := None; aistudio := true;
              hasSelectedApiKey := Fulfilled true;
              openSelectKey := Fulfilled tt;
              fileReaderError := fun _ => Some Scenario.quotaError;
              objectId := fun _ => lit "7";
              newGoogleGenAI := fun _ => Fulfilled tt;
              generateVideos := fun _ => Rejected TypeError;
              getVideosOperation := fun _ _ => Rejected TypeError;
              fetch := fun _ => Rejected TypeError |}
           Scenario.ready Scenario.png10 Scenario.quotaError).
  reflexivity.
Defined.

(** X9.  The two image handlers keep the preview URL accounted for: when
    the object URLs alive are exactly the preview URL the state holds, they
    still are after [removeImage], and after a [handleImageChange] whose
    file could be read. *)
Theorem preview_url_accounting (env : Env) (st : State) (f : File) :
  live env (preview_urls st) (events (removeImage st))
  = preview_urls (state_after st (removeImage st)) /\
  (fileReaderError env f = None ->
   live env (preview_urls st) (events (handleImageChange env st (Some f)))
   = preview_urls (state_after st (handleImageChange env st (Some f)))).
Proof.
  split.
  - unfold removeImage, state_after.
    assert (E : events (revokePreview st;; emit (SetReferenceImage noImage))
                = events (revokePreview st) ++ [SetReferenceImage noImage]).
    { rewrite revokePreview_run. reflexivity. }
    rewrite E, live_app, live_revokePreview, run_state_app.
    reflexivity.
  - intros Hread. unfold preview_urls at 2.
    rewrite (attached_image env st f Hread). cbn [previewUrl truthy app lit].
    rewrite (handleImageChange_run env st f Hread). cbn [events fst].
    rewrite live_app, live_revokePreview. reflexivity.
Qed.

Lemma preview_url_accounting_witness :
  fileReaderError (Scenario.refusing Scenario.quotaError) Scenario.png10 = None /\
  live (Scenario.refusing Scenario.quotaError) (preview_urls Scenario.ready)
    (events (handleImageChange (Scenario.refusing Scenario.quotaError)
               Scenario.ready (Some Scenario.png10)))
  = [lit "blob:https://app.test/0001"].
Proof.
  split; [reflexivity|].
  rewrite (proj2 (preview_url_accounting
                    (Scenario.refusing Scenario.quotaError)
                    Scenario.ready Scenario.png10) eq_refl).
  reflexivity.
Defined.

(** ** The video's object URL *)

Lemma live_neutral (env : Env) (urls : list jsstring) (tr : list Event) :
  forallb (fun ev => negb (touches_object_urls ev)) tr = true ->
  live env urls tr = urls.
Proof.
  revert urls. induction tr as [|ev tr IH]; intros urls H; [reflexivity|].
  cbn [forallb] in H. apply andb_prop in H as [Hev Htr].
  destruct ev; cbn in Hev; try discriminate; cbn [live]; exact (IH urls Htr).
Qed.

Lemma poll_events_neutral (tr : list Event) :
  forallb is_poll_event tr = true ->
  forallb (fun ev => negb (touches_object_urls ev)) tr = true.
Proof. apply forallb_weaken. by_event. Qed.

Lemma handler_never_revokes (env : Env) (fuel : nat) (st : State) :
  filter is_revoke (events (handleGenerateVideo env fuel st)) = [].
Proof.
  destruct (rejected st) eqn:Hrej.
  - rewrite (handleGenerateVideo_rejected env fuel st Hrej). reflexivity.
  - rewrite (handler_filter env fuel st is_revoke); [| |exact Hrej].
    + apply (filter_none _ is_attempt_event); [|apply attempt_events].
      by_event.
    + by_event.
Qed.

Lemma revoked_is_preview (st : State) (u : jsstring) :
  In (RevokeObjectURL u) (events (revokePreview st)) ->
  previewUrl (referenceImage st) = Some u.
Proof.
  rewrite revokePreview_run. cbn [events fst].
  destruct (previewUrl (referenceImage st)) as [v|]; [|intros []].
  destruct (truthy v); [|intros []].
  intros [H|[]]. injection H as ->. reflexivity.
Qed.

Lemma handleImageChange_events (env : Env) (st : State) (f : File) :
  exists rest,
    events (handleImageChange env st (Some f))
    = events (revokePreview st) ++ rest /\
    filter is_revoke rest = [].
Proof.
  unfold handleImageChange, fileToBase64, createObjectURL.
  rewrite revokePreview_run. cbn [events fst].
  destruct (fileReaderError env f); eexists; split; reflexivity.
Qed.

Lemma attempt_success_shape (env : Env) (fuel : nat) (st : State)
    (tr : list Event) (u : unit) :
  attempt env fuel st = (tr, Normal u) ->
  exists ptr url b,
    forallb is_poll_event ptr = true /\
    tr = NewGoogleGenAI (API_KEY env) :: GenerateVideos (buildPayload st)
         :: ptr ++ [Fetch url; ReadBlob; CreateObjectURL b;
                    SetGeneratedVideoUrl (Some (lit "blob:" ++ objectId env b))].
Proof.
  intros E. pose proof (attempt_outcome env fuel st) as Ho. rewrite E in Ho.
  inversion Ho; subst.
  match goal with
  | Hp : pollLoop _ _ _ ?o = (?l, Normal ?o1) |- _ =>
      exists l; do 2 eexists; split;
      [ change l with (events (l, Normal o1)); rewrite <- Hp;
        apply pollLoop_events
      | reflexivity ]
  end.
Qed.

(** X10.  No handler ever revokes the object URL made for a generated
    video.  [handleGenerateVideo] makes no revoke call at all, also when
    its opening [setGeneratedVideoUrl(null)] drops the handle of an earlier
    video; [checkApiKey] and [handleSelectKey] make none; and the only URL
    [handleImageChange] and [removeImage] revoke is the preview URL of the
    state.  So each generation that succeeds leaves one more object URL
    alive. *)
Theorem video_url_is_never_revoked (env : Env) (fuel : nat) (st : State) :
  filter is_revoke (events (handleGenerateVideo env fuel st)) = [] /\
  filter is_revoke (events (checkApiKey env)) = [] /\
  filter is_revoke (events (handleSelectKey env)) = [] /\
  (forall picked u,
     In (RevokeObjectURL u) (events (handleImageChange env st picked)) \/
     In (RevokeObjectURL u) (events (removeImage st)) ->
     previewUrl (referenceImage st) = Some u) /\
  (forall u urls,
     rejected st = false ->
     completion (attempt env fuel st) = Normal u ->
     exists b,
       generatedVideoUrl (state_after st (handleGenerateVideo env fuel st))
       = Some (lit "blob:" ++ objectId env b) /\
       live env urls (events (handleGenerateVideo env fuel st))
       = (lit "blob:" ++ objectId env b) :: urls).
Proof.
  repeat apply conj.
  - apply handler_never_revokes.
  - rewrite checkApiKey_run.
    destruct (aistudio env); [|reflexivity].
    destruct (hasSelectedApiKey env); reflexivity.
  - unfold handleSelectKey.
    destruct (aistudio env); [destruct (openSelectKey env)|]; reflexivity.
  - intros picked u [H|H]; apply revoked_is_preview.
    + destruct picked as [f|]; [|destruct H].
      destruct (handleImageChange_events env st f) as (rest & E & Hrest).
      rewrite E in H. apply in_app_or in H as [H|H]; [exact H|].
      assert (Hin : In (RevokeObjectURL u) (filter is_revoke rest))
        by (apply filter_In; split; [exact H | reflexivity]).
      rewrite Hrest in Hin. destruct Hin.
    + rewrite removeImage_run in H. rewrite revokePreview_run.
      cbn [events fst] in *. apply in_app_or in H as [H|H]; [exact H|].
      destruct H as [H|[]]. discriminate H.
  - intros u urls Hacc Hc.
    destruct (attempt env fuel st) as [tr c] eqn:E. cbn in Hc. subst c.
    destruct (attempt_success_shape env fuel st tr u E)
      as (ptr & url & b & Hptr & ->).
    exists b.
    rewrite (handleGenerateVideo_run env fuel st Hacc), E.
    unfold state_after. cbn [events fst].
    change (NewGoogleGenAI (API_KEY env) :: GenerateVideos (buildPayload st)
            :: ptr ++ ?l)
      with ([NewGoogleGenAI (API_KEY env); GenerateVideos (buildPayload st)]
            ++ ptr ++ l).
    split.
    + rewrite !run_state_app,
        (run_state_quiet _ ptr (poll_events_quiet ptr Hptr)).
      reflexivity.
    + rewrite !live_app.
      rewrite (live_neutral env _ ptr (poll_events_neutral ptr Hptr)).
      reflexivity.
Qed.

Lemma video_url_is_never_revoked_witness :
  rejected Scenario.ready = false /\
  live (Scenario.service 2 (Scenario.finished (Some Scenario.videoUri))
          (Fulfilled Scenario.okResponse))
    []
    (events
       (handleGenerateVideo
          (Scenario.service 2 (Scenario.finished (Some Scenario.videoUri))
             (Fulfilled Scenario.okResponse)) 2 Scenario.ready))
  = [lit "blob:https://app.test/0001"] /\
  filter is_revoke
    (events
       (handleGenerateVideo
          (Scenario.service 2 (Scenario.finished (Some Scenario.videoUri))
             (Fulfilled Scenario.okResponse)) 2 Scenario.ready))
  = [].
Proof.
  split; [reflexivity|]. split; [reflexivity|].
  apply (proj1 (video_url_is_never_revoked
                  (Scenario.service 2
                     (Scenario.finished (Some Scenario.videoUri))
                     (Fulfilled Scenario.okResponse))
                  2 Scenario.ready)).
Defined.

(** ** Where the media is fetched from *)

Lemma attempt_fetches (env : Env) (fuel : nat) (st : State) :
  filter is_fetch (events (attempt env fuel st)) = [] \/
  exists o o' os,
    generateVideos env (buildPayload st) = Fulfilled o /\
    Polled env 0 o os o' /\ done o' = true /\
    truthy_opt (downloadLink o') = true /\
    filter is_fetch (events (attempt env fuel st))
    = [Fetch (interpolate (downloadLink o') ++ lit "&key="
              ++ interpolate (API_KEY env))].
Proof.
  assert (Hp : forall o ptr c, pollLoop env fuel 0 o = (ptr, c) ->
                 filter is_fetch ptr = []).
  { intros o ptr c H. apply (filter_none _ is_poll_event); [by_event|].
    change ptr with (events (ptr, c)). rewrite <- H. apply pollLoop_events. }
  assert (Hd : forall o ptr o', pollLoop env fuel 0 o = (ptr, Normal o') ->
                 exists os, Polled env 0 o os o' /\ done o' = true).
  { intros o ptr o' H. apply pollLoop_returns_iff in H.
    destruct H as (os & _ & Hpo & Hdo & _). exists os. auto. }
  destruct (attempt_outcome env fuel st);
    cbn [events fst filter is_fetch]; rewrite ?filter_app;
    try (left;
         repeat match goal with
                | Hpoll : pollLoop _ _ _ _ = (_, _) |- _ =>
                    rewrite (Hp _ _ _ Hpoll); clear Hpoll
                end; reflexivity);
    right;
    match goal with
    | Hpoll : pollLoop _ _ _ ?o = (_, Normal ?o1) |- _ =>
        destruct (Hd _ _ _ Hpoll) as (os & Hpo & Hdo);
        exists o, o1, os; rewrite (Hp _ _ _ Hpoll); subst;
        repeat split; assumption
    end.
Qed.

(** X11.  A run fetches at most once, and only after the polls have led to
    a done operation with a video URI: the address fetched is that URI
    followed by [&key=] and the API key of the build.  When the build has
    no API key the address ends with the text [&key=undefined]. *)
Theorem media_fetch_address (env : Env) (fuel : nat) (st : State)
    (url : jsstring) :
  In (Fetch url) (events (handleGenerateVideo env fuel st)) ->
  filter is_fetch (events (handleGenerateVideo env fuel st)) = [Fetch url] /\
  exists o o' os link,
    generateVideos env (buildPayload st) = Fulfilled o /\
    Polled env 0 o os o' /\ done o' = true /\
    downloadLink o' = Some link /\ truthy link = true /\
    url = link ++ lit "&key=" ++ interpolate (API_KEY env) /\
    (API_KEY env = None -> url = link ++ lit "&key=undefined").
Proof.
  intros Hin.
  assert (Hf : In (Fetch url)
                 (filter is_fetch (events (handleGenerateVideo env fuel st))))
    by (apply filter_In; split; [exact Hin | reflexivity]).
  destruct (rejected st) eqn:Hrej.
  { rewrite (handleGenerateVideo_rejected env fuel st Hrej) in Hf.
    destruct Hf. }
  rewrite (handler_filter env fuel st is_fetch) in *;
    [| by_event | exact Hrej | by_event | exact Hrej].
  destruct (attempt_fetches env fuel st)
    as [E | (o & o' & os & Hgen & Hpo & Hdo & Hlink & E)];
    rewrite E in *; [destruct Hf|].
  destruct Hf as [Hf|[]]. injection Hf as <-.
  split; [reflexivity|].
  destruct (downloadLink o') as [link|] eqn:El; [|discriminate].
  exists o, o', os, link. cbn [interpolate].
  repeat split; try assumption.
  intros ->. reflexivity.
Qed.

Lemma media_fetch_address_witness :
  In (Fetch (lit "https://example.test/v1/files/abc:download?alt=media&key=KEY"))
    (events
       (handleGenerateVideo
          (Scenario.service 1 (Scenario.finished (Some Scenario.videoUri))
             (Fulfilled Scenario.okResponse)) 1 Scenario.ready)) /\
  filter is_fetch
    (events
       (handleGenerateVideo
          (Scenario.service 1 (Scenario.finished (Some Scenario.videoUri))
             (Fulfilled Scenario.okResponse)) 1 Scenario.ready))
  = [Fetch (lit "https://example.test/v1/files/abc:download?alt=media&key=KEY")].
Proof.
  assert (Hin : In (Fetch (lit "https://example.test/v1/files/abc:download?alt=media&key=KEY"))
                  (events
                     (handleGenerateVideo
                        (Scenario.service 1
                           (Scenario.finished (Some Scenario.videoUri))
                           (Fulfilled Scenario.okResponse)) 1 Scenario.ready))).
  { cbn. do 8 right. left. reflexivity. }
  split; [exact Hin|].
  apply (media_fetch_address
           (Scenario.service 1 (Scenario.finished (Some Scenario.videoUri))
              (Fulfilled Scenario.okResponse)) 1 Scenario.ready _ Hin).
Defined.

(** ** Submitting again *)

(** X12.  A run that completes, failed or not, leaves the form as it was:
    prompt, reference image, aspect ratio and resolution are untouched and
    [isLoading] is false again.  So the state it leaves is accepted by the
    guard, and submitting again sends the same payload. *)
Theorem completed_run_can_be_resubmitted (env : Env) (fuel : nat)
    (st : State) :
  rejected st = false ->
  completion (handleGenerateVideo env fuel st) = Normal tt ->
  rejected (state_after st (handleGenerateVideo env fuel st)) = false /\
  buildPayload (state_after st (handleGenerateVideo env fuel st))
  = buildPayload st /\
  forall env' fuel',
    newGoogleGenAI env' (API_KEY env') = Fulfilled tt ->
    filter is_submission
      (events (handleGenerateVideo env' fuel'
                 (state_after st (handleGenerateVideo env fuel st))))
    = [GenerateVideos (buildPayload st)].
Proof.
  intros Hacc Hc.
  assert (Hst : exists s,
             state_after st (handleGenerateVideo env fuel st) = s /\
             prompt s = prompt st /\
             referenceImage s = referenceImage st /\
             aspectRatio s = aspectRatio st /\
             resolution s = resolution st /\
             isLoading s = false).
  { destruct (attempt env fuel st) as [tr [u|e|]] eqn:E.
    - destruct (succeeded_run env fuel st tr u Hacc E)
        as (_ & tr' & b & _ & _ & ->).
      eexists. split; [reflexivity|]. repeat split.
    - destruct (failed_run env fuel st tr e Hacc E) as (_ & _ & ->).
      eexists. split; [reflexivity|]. repeat split.
    - destruct (waiting_run env fuel st tr Hacc E) as (Hrun & _).
      rewrite Hrun in Hc. discriminate Hc. }
  destruct Hst as (s & -> & Hp & Hi & Ha & Hr & Hl).
  assert (Hrej : rejected s = false).
  { unfold rejected in *. rewrite Hp, Hl.
    apply orb_false_iff in Hacc as [H1 _]. rewrite H1. reflexivity. }
  assert (Hpay : buildPayload s = buildPayload st).
  { unfold buildPayload. rewrite Hp, Hi, Ha, Hr. reflexivity. }
  repeat split; [exact Hrej | exact Hpay |].
  intros env' fuel' Hnew.
  rewrite (handler_filter env' fuel' s is_submission); [| by_event | exact Hrej].
  rewrite (attempt_submission env' fuel' s Hnew), Hpay. reflexivity.
Qed.

Lemma completed_run_can_be_resubmitted_witness :
  rejected Scenario.ready = false /\
  completion (handleGenerateVideo (Scenario.refusing Scenario.quotaError)
                2 Scenario.ready) = Normal tt /\
  rejected (state_after Scenario.ready
              (handleGenerateVideo (Scenario.refusing Scenario.quotaError)
                 2 Scenario.ready)) = false.
Proof.
  split; [reflexivity|]. split; [reflexivity|].
  apply (completed_run_can_be_resubmitted
           (Scenario.refusing Scenario.quotaError) 2 Scenario.ready);
    reflexivity.
Defined.

(** ** The loading message timer *)

Lemma mountTimers_in_step (first : positive) :
  timers_in_step (mountTimers first).
Proof. split; reflexivity. Qed.

Lemma lifecycle_in_step (m : Mounted) (l : Lifecycle) :
  timers_in_step m -> timers_in_step (snd (lifecycle m l)).
Proof.
  unfold timers_in_step. destruct m as [t d a].
  cbn [alive dep timers]. intros H.
  destruct l as [loading|id|]; cbn [lifecycle alive dep timers].
  - destruct a; cbn [andb]; [|exact H].
    destruct loading, d; cbn [Bool.eqb negb snd alive dep timers];
      try exact H.
    + destruct H as (Href & Hint).
      unfold loadingCleanup, loadingEffect, setInterval, setRef.
      rewrite Href, Hint. cbn.
      exists {| intervalId := nextId t; delay := 4000; messageIndex := 0 |}.
      repeat split.
    + destruct H as (i & Href & Hint & Hdelay).
      unfold loadingCleanup, loadingEffect, clearInterval, setRef.
      rewrite Href, Hint. cbn. rewrite Pos.eqb_refl. cbn.
      split; reflexivity.
  - unfold fire. destruct a, d; cbn [alive dep timers] in *.
    + destruct H as (i & Href & Hint & Hdelay). rewrite Hint.
      cbn [find map]. destruct (Pos.eqb (intervalId i) id);
        cbn [snd alive dep timers loadingIntervalRef intervals].
      * eexists. repeat split; [exact Href | exact Hdelay].
      * exists i. repeat split; assumption.
    + destruct H as (Href & Hint). rewrite Hint. cbn. split; assumption.
    + rewrite H. cbn. exact H.
    + rewrite H. cbn. exact H.
  - destruct a; cbn [snd alive dep timers]; [|exact H].
    destruct d.
    + destruct H as (i & Href & Hint & Hdelay).
      unfold loadingCleanup, clearInterval. rewrite Href, Hint. cbn.
      rewrite Pos.eqb_refl. reflexivity.
    + destruct H as (Href & Hint).
      unfold loadingCleanup. rewrite Href. exact Hint.
Qed.

Lemma lifecycles_in_step (ls : list Lifecycle) (m : Mounted) :
  timers_in_step m -> timers_in_step (snd (lifecycles m ls)).
Proof.
  revert m. induction ls as [|l ls IH]; intros m H; [exact H|].
  cbn [lifecycles].
  pose proof (lifecycle_in_step m l H) as H1.
  destruct (lifecycle m l) as [evs m']. cbn [snd] in H1.
  specialize (IH m' H1).
  destruct (lifecycles m' ls) as [evs' m'']. exact IH.
Qed.

(** X13.  However renders, timer expiries and the unmount follow one
    another after the component is mounted, at most one interval is set.
    While the last rendered [isLoading] is true it is the 4000 ms interval
    whose id [loadingIntervalRef] holds; once [isLoading] has gone back to
    false, or the component is unmounted, no interval is left, and an
    expiry then sets no message. *)
Theorem loading_timer_is_torn_down (first : positive) (ls : list Lifecycle) :
  (alive (snd (lifecycles (mountTimers first) ls)) = true ->
   dep (snd (lifecycles (mountTimers first) ls)) = true ->
   exists i,
     loadingIntervalRef (timers (snd (lifecycles (mountTimers first) ls)))
     = Some (intervalId i) /\
     intervals (timers (snd (lifecycles (mountTimers first) ls))) = [i] /\
     delay i = 4000%N) /\
  (alive (snd (lifecycles (mountTimers first) ls)) = false \/
   dep (snd (lifecycles (mountTimers first) ls)) = false ->
   intervals (timers (snd (lifecycles (mountTimers first) ls))) = [] /\
   forall id,
     fst (lifecycle (snd (lifecycles (mountTimers first) ls)) (Elapse id)) = []) /\
  List.length (intervals (timers (snd (lifecycles (mountTimers first) ls)))) <= 1.
Proof.
  pose proof (lifecycles_in_step ls (mountTimers first)
                (mountTimers_in_step first)) as H.
  unfold timers_in_step in H.
  destruct (snd (lifecycles (mountTimers first) ls)) as [t d a].
  cbn [alive dep timers] in *.
  repeat apply conj.
  - intros -> ->. exact H.
  - intros Hoff.
    assert (Hint : intervals t = []).
    { destruct a, d; try exact H; try (destruct H; assumption).
      destruct Hoff; discriminate. }
    split; [exact Hint|].
    intros id. cbn [lifecycle timers]. unfold fire. rewrite Hint. reflexivity.
  - destruct a, d.
    + destruct H as (i & _ & -> & _). cbn. lia.
    + destruct H as (_ & ->). cbn. lia.
    + rewrite H. cbn. lia.
    + rewrite H. cbn. lia.
Qed.

Lemma loading_timer_is_torn_down_witness :
  intervals
    (timers (snd (lifecycles (mountTimers 1)
                    [Render true; Elapse 1; Elapse 1; Render false; Elapse 1])))
  = [] /\
  fst (lifecycles (mountTimers 1)
         [Render true; Elapse 1; Elapse 1; Render false; Elapse 1])
  = [SetLoadingMessage (lit "Warming up the pixels...");
     SetLoadingMessage (lit "Choreographing the frames...")].
Proof.
  split; [|reflexivity].
  apply (proj1 (proj2 (loading_timer_is_torn_down 1
           [Render true; Elapse 1; Elapse 1; Render false; Elapse 1]))).
  right. reflexivity.
Defined.

Lemma fire_single (i : Interval) (ref : option positive) (next : positive) :
  fire (intervalId i)
    {| loadingIntervalRef := ref; intervals := [i]; nextId := next |}
  = ([SetLoadingMessage (nth ((messageIndex i + 1) mod 7) LOADING_MESSAGES [])],
     {| loadingIntervalRef := ref;
        intervals := [{| intervalId := intervalId i; delay := delay i;
                         messageIndex := (messageIndex i + 1) mod 7 |}];
        nextId := next |}).
Proof.
  unfold fire. cbn [intervals find map loadingIntervalRef nextId].
  rewrite Pos.eqb_refl. reflexivity.
Qed.

Lemma elapse_rotates (n : nat) (i : Interval) (ref : option positive)
    (next : positive) (d a : bool) :
  fst (lifecycles
         {| timers := {| loadingIntervalRef := ref; intervals := [i];
                         nextId := next |};
            dep := d; alive := a |}
         (repeat (Elapse (intervalId i)) n))
  = map (fun k => SetLoadingMessage
                    (nth ((messageIndex i + k) mod 7) LOADING_MESSAGES []))
        (seq 1 n).
Proof.
  revert i. induction n as [|n IH]; intros i; [reflexivity|].
  cbn [repeat lifecycles lifecycle timers dep alive].
  rewrite fire_single.
  specialize (IH {| intervalId := intervalId i; delay := delay i;
                    messageIndex := (messageIndex i + 1) mod 7 |}).
  cbn [intervalId messageIndex] in IH.
  destruct (lifecycles _ (repeat (Elapse (intervalId i)) n)) as [evs m'].
  cbn [fst] in *. rewrite IH. cbn [app seq map]. f_equal.
  rewrite <- (seq_shift n 1), map_map. apply map_ext. intros k.
  rewrite Nat.Div0.add_mod_idemp_l.
  replace (messageIndex i + 1 + k) with (messageIndex i + S k) by lia.
  reflexivity.
Qed.

(** X14.  From a render with [isLoading] true on, the [n]-th expiry of the
    interval sets the loading message to entry [n mod 7] of
    [LOADING_MESSAGES]: the messages are shown in order, starting with the
    second one, and start over after the seventh.  The index never leaves
    the list, and a render with an unchanged [isLoading] neither restarts
    the interval nor resets the rotation. *)
Theorem loading_message_rotates (m : Mounted) (n : nat) :
  alive m = true ->
  dep m = false ->
  intervals (timers m) = [] ->
  fst (lifecycles m (Render true :: repeat (Elapse (nextId (timers m))) n))
  = map (fun k => SetLoadingMessage (nth (k mod 7) LOADING_MESSAGES []))
        (seq 1 n) /\
  (forall k, In (nth (k mod 7) LOADING_MESSAGES []) LOADING_MESSAGES) /\
  (forall m', lifecycle m' (Render (dep m')) = ([], m')).
Proof.
  intros Ha Hd Hint. destruct m as [[ref ints next] d a].
  cbn [alive dep timers intervals nextId] in *. subst a d ints.
  repeat apply conj.
  - cbn [lifecycles lifecycle alive dep andb Bool.eqb negb timers].
    assert (E : loadingEffect true
                  (loadingCleanup
                     {| loadingIntervalRef := ref; intervals := [];
                        nextId := next |})
                = {| loadingIntervalRef := Some next;
                     intervals := [{| intervalId := next; delay := 4000;
                                      messageIndex := 0 |}];
                     nextId := Pos.succ next |}).
    { unfold loadingCleanup, loadingEffect, setInterval, setRef, clearInterval.
      destruct ref; reflexivity. }
    rewrite E.
    pose proof (elapse_rotates n
                  {| intervalId := next; delay := 4000; messageIndex := 0 |}
                  (Some next) (Pos.succ next) true true) as H.
    cbn [intervalId messageIndex] in H.
    destruct (lifecycles _ (repeat (Elapse next) n)) as [evs m'].
    cbn [fst app] in *. exact H.
  - intros k. apply nth_In.
    change (List.length LOADING_MESSAGES) with 7.
    apply Nat.mod_upper_bound. lia.
  - intros m'. cbn [lifecycle]. rewrite Bool.eqb_reflx.
    cbn [negb]. rewrite andb_false_r. reflexivity.
Qed.

Lemma loading_message_rotates_witness :
  alive (mountTimers 5) = true /\
  dep (mountTimers 5) = false /\
  intervals (timers (mountTimers 5)) = [] /\
  fst (lifecycles (mountTimers 5) (Render true :: repeat (Elapse 5) 8))
  = [SetLoadingMessage (lit "Warming up the pixels...");
     SetLoadingMessage (lit "Choreographing the frames...");
     SetLoadingMessage (lit "This might take a few minutes. Great art needs patience!");
     SetLoadingMessage (lit "Rendering cinematic magic...");
     SetLoadingMessage (lit "Almost there, polishing the final cut...");
     SetLoadingMessage (lit "Consulting with the AI director...");
     SetLoadingMessage (lit "Summoning digital muses...");
     SetLoadingMessage (lit "Warming up the pixels...")].
Proof.
  split; [reflexivity|]. split; [reflexivity|]. split; [reflexivity|].
  apply (proj1 (loading_message_rotates (mountTimers 5) 8
                  eq_refl eq_refl eq_refl)).
Defined.

(** ** Reading a file as base64 *)

Lemma below_256 (P : N -> bool) :
  forallb P range256 = true -> forall n, (n < 256)%N -> P n = true.
Proof.
  intros H n Hn. rewrite forallb_forall in H. apply H.
  unfold range256. rewrite <- (N2Nat.id n). apply in_map.
  apply in_seq. lia.
Qed.

Lemma below_256_2 (P : N -> N -> bool) :
  forallb (fun a => forallb (P a) range256) range256 = true ->
  forall a b, (a < 256)%N -> (b < 256)%N -> P a b = true.
Proof.
  intros H a b Ha Hb.
  apply (below_256 (P a)); [|exact Hb].
  apply (below_256 (fun a => forallb (P a) range256) H a Ha).
Qed.

Lemma value_alphabet (v : N) :
  (v < 64)%N -> Base64Decode.value (Base64.alphabet v) = Some v.
Proof.
  intros Hv.
  pose (P := fun n => if N.ltb n 64
                      then match Base64Decode.value (Base64.alphabet n) with
                           | Some m => N.eqb m n
                           | None => false
                           end
                      else true).
  assert (H : P v = true)
    by (apply below_256; [vm_compute; reflexivity | lia]).
  unfold P in H. clear P. destruct (N.ltb_spec v 64); [|lia].
  destruct (Base64Decode.value (Base64.alphabet v)); [|discriminate].
  apply N.eqb_eq in H. subst. reflexivity.
Qed.

Lemma alphabet_not_pad (n : N) : N.eqb (Base64.alphabet n) Base64.pad = false.
Proof.
  apply N.eqb_neq. unfold Base64.alphabet, Base64.pad.
  destruct (N.ltb_spec n 26); [lia|].
  destruct (N.ltb_spec n 52); [lia|].
  destruct (N.ltb_spec n 62); [lia|].
  destruct (N.eqb n 62); lia.
Qed.

Lemma sextets_one (a : N) :
  (a < 256)%N ->
  (N.shiftr a 2 < 64)%N /\ (N.shiftl (N.land a 3) 4 < 64)%N /\
  (N.land a 63 < 64)%N /\ (N.shiftl (N.land a 15) 2 < 64)%N /\
  Base64Decode.byte1 (N.shiftr a 2) (N.shiftl (N.land a 3) 4) = a /\
  N.lor (N.shiftl (N.shiftr a 4) 4) (N.land a 15) = a /\
  N.shiftr (N.shiftl (N.land a 15) 2) 2 = N.land a 15.
Proof.
  intros Ha.
  pose (P := fun a =>
                 N.ltb (N.shiftr a 2) 64 && N.ltb (N.shiftl (N.land a 3) 4) 64
                 && N.ltb (N.land a 63) 64
                 && N.ltb (N.shiftl (N.land a 15) 2) 64
                 && N.eqb (Base64Decode.byte1 (N.shiftr a 2)
                             (N.shiftl (N.land a 3) 4)) a
                 && N.eqb (N.lor (N.shiftl (N.shiftr a 4) 4) (N.land a 15)) a
                 && N.eqb (N.shiftr (N.shiftl (N.land a 15) 2) 2) (N.land a 15)).
  assert (H : P a = true)
    by (apply below_256; [vm_compute; reflexivity | exact Ha]).
  unfold P in H. clear P.
  repeat (apply andb_prop in H as [H ?]).
  repeat split;
    try (apply N.ltb_lt; assumption); apply N.eqb_eq; assumption.
Qed.

Lemma sextets_two (a b : N) :
  (a < 256)%N -> (b < 256)%N ->
  (N.lor (N.shiftl (N.land a 3) 4) (N.shiftr b 4) < 64)%N /\
  (N.lor (N.shiftl (N.land a 15) 2) (N.shiftr b 6) < 64)%N /\
  Base64Decode.byte1 (N.shiftr a 2)
    (N.lor (N.shiftl (N.land a 3) 4) (N.shiftr b 4)) = a /\
  N.land (N.lor (N.shiftl (N.land a 3) 4) (N.shiftr b 4)) 15 = N.shiftr b 4 /\
  N.shiftr (N.lor (N.shiftl (N.land a 15) 2) (N.shiftr b 6)) 2 = N.land a 15 /\
  Base64Decode.byte3 (N.lor (N.shiftl (N.land a 15) 2) (N.shiftr b 6))
    (N.land b 63) = b.
Proof.
  intros Ha Hb.
  pose (P := fun a b =>
                 N.ltb (N.lor (N.shiftl (N.land a 3) 4) (N.shiftr b 4)) 64
                 && N.ltb (N.lor (N.shiftl (N.land a 15) 2) (N.shiftr b 6)) 64
                 && N.eqb (Base64Decode.byte1 (N.shiftr a 2)
                             (N.lor (N.shiftl (N.land a 3) 4) (N.shiftr b 4))) a
                 && N.eqb (N.land (N.lor (N.shiftl (N.land a 3) 4)
                                     (N.shiftr b 4)) 15) (N.shiftr b 4)
                 && N.eqb (N.shiftr (N.lor (N.shiftl (N.land a 15) 2)
                                       (N.shiftr b 6)) 2) (N.land a 15)
                 && N.eqb (Base64Decode.byte3
                             (N.lor (N.shiftl (N.land a 15) 2) (N.shiftr b 6))
                             (N.land b 63)) b).
  assert (H : P a b = true)
    by (apply below_256_2; [vm_compute; reflexivity | exact Ha | exact Hb]).
  unfold P in H. clear P.
  repeat (apply andb_prop in H as [H ?]).
  repeat split;
    try (apply N.ltb_lt; assumption); apply N.eqb_eq; assumption.
Qed.

Lemma to_N_below (a : byte) : (Byte.to_N a < 256)%N.
Proof. pose proof (Byte.to_N_bounded a). lia. Qed.

Lemma byte2_of (a b c : N) :
  (a < 256)%N -> (b < 256)%N -> (c < 256)%N ->
  Base64Decode.byte2 (N.lor (N.shiftl (N.land a 3) 4) (N.shiftr b 4))
    (N.lor (N.shiftl (N.land b 15) 2) (N.shiftr c 6)) = b.
Proof.
  intros Ha Hb Hc. unfold Base64Decode.byte2.
  destruct (sextets_two a b Ha Hb) as (_ & _ & _ & -> & _).
  destruct (sextets_two b c Hb Hc) as (_ & _ & _ & _ & -> & _).
  apply (sextets_one b Hb).
Qed.

Lemma byte2_of_last (a b : N) :
  (a < 256)%N -> (b < 256)%N ->
  Base64Decode.byte2 (N.lor (N.shiftl (N.land a 3) 4) (N.shiftr b 4))
    (N.shiftl (N.land b 15) 2) = b.
Proof.
  intros Ha Hb. unfold Base64Decode.byte2.
  destruct (sextets_two a b Ha Hb) as (_ & _ & _ & -> & _).
  destruct (sextets_one b Hb) as (_ & _ & _ & _ & _ & H & ->).
  exact H.
Qed.

Lemma decode_encode (bs : list byte) :
  Base64Decode.decode (Base64.encode bs) = Some bs.
Proof.
  induction bs as [|a|a b|a b c l IH] using list_ind3.
  - reflexivity.
  - pose proof (to_N_below a) as Ha.
    destruct (sextets_one _ Ha) as (H1 & H2 & _ & _ & H3 & _).
    cbn [Base64.encode Base64Decode.decode].
    rewrite (value_alphabet _ H1), (value_alphabet _ H2), !N.eqb_refl, H3.
    rewrite Byte.of_to_N. reflexivity.
  - pose proof (to_N_below a) as Ha. pose proof (to_N_below b) as Hb.
    destruct (sextets_one _ Ha) as (H1 & _).
    destruct (sextets_one _ Hb) as (_ & _ & _ & H4 & _).
    destruct (sextets_two _ _ Ha Hb) as (H2 & _ & H3 & _).
    cbn [Base64.encode Base64Decode.decode].
    rewrite (value_alphabet _ H1), (value_alphabet _ H2),
      (value_alphabet _ H4), N.eqb_refl, alphabet_not_pad, H3,
      (byte2_of_last _ _ Ha Hb), !Byte.of_to_N.
    reflexivity.
  - pose proof (to_N_below a) as Ha. pose proof (to_N_below b) as Hb.
    pose proof (to_N_below c) as Hc.
    destruct (sextets_one _ Ha) as (H1 & _).
    destruct (sextets_one _ Hc) as (_ & _ & H4 & _).
    destruct (sextets_two _ _ Ha Hb) as (H2 & _ & H5 & _).
    destruct (sextets_two _ _ Hb Hc) as (_ & H3 & _ & _ & _ & H6).
    cbn [Base64.encode Base64Decode.decode].
    rewrite (value_alphabet _ H1), (value_alphabet _ H2),
      (value_alphabet _ H3), (value_alphabet _ H4), alphabet_not_pad,
      H5, (byte2_of _ _ _ Ha Hb Hc), H6, !Byte.of_to_N, IH.
    reflexivity.
Qed.

Lemma encode_length (bs : list byte) :
  List.length (Base64.encode bs) = 4 * ((List.length bs + 2) / 3).
Proof.
  induction bs as [|a|a b|a b c l IH] using list_ind3;
    cbn [Base64.encode List.length]; try reflexivity.
  rewrite IH.
  replace (S (S (S (List.length l))) + 2) with (List.length l + 2 + 1 * 3)
    by lia.
  rewrite Nat.div_add by lia. lia.
Qed.

Lemma split_aux_length (sep : N) (s cur : jsstring) :
  List.length (split_aux sep cur s) = S (count_sep sep s).
Proof.
  unfold count_sep. revert cur.
  induction s as [|c s IH]; intros cur; cbn [split_aux filter]; [reflexivity|].
  rewrite (N.eqb_sym sep c).
  destruct (N.eqb c sep); cbn [List.length]; rewrite IH; reflexivity.
Qed.

Lemma count_sep_app (sep : N) (a b : jsstring) :
  count_sep sep (a ++ b) = count_sep sep a + count_sep sep b.
Proof. unfold count_sep. rewrite filter_app. apply length_app. Qed.

Lemma data_url_has_second_part (f : File) :
  exists s, nth_error (split comma (readAsDataURL f)) 1 = Some s.
Proof.
  destruct (nth_error (split comma (readAsDataURL f)) 1) as [s|] eqn:E.
  - exists s. reflexivity.
  - apply nth_error_None in E. unfold split in E.
    rewrite split_aux_length in E. unfold readAsDataURL in E.
    rewrite !count_sep_app in E.
    change (count_sep comma (lit ";base64,")) with 1 in E. lia.
Qed.

(** X15.  [fileToBase64] makes one call, the read.  When the read fails it
    rejects with the reader's error.  When it succeeds it always resolves
    to a string, never to [undefined], since a data URL contains a comma;
    and when the file's type has no comma that string is the base64 text
    of the file's bytes: four characters for every three bytes, rounded
    up, from which base64 decoding gives the bytes back. *)
Theorem fileToBase64_result (env : Env) (f : File) :
  (forall e,
     fileReaderError env f = Some e ->
     fileToBase64 env f = ([ReadAsDataURL f], Throw e)) /\
  (fileReaderError env f = None ->
   exists s, fileToBase64 env f = ([ReadAsDataURL f], Normal (Some s))) /\
  (fileReaderError env f = None ->
   no_comma (type f) = true ->
   fileToBase64 env f
   = ([ReadAsDataURL f], Normal (Some (Base64.encode (bytes f)))) /\
   Base64Decode.decode (Base64.encode (bytes f)) = Some (bytes f) /\
   List.length (Base64.encode (bytes f))
   = 4 * ((List.length (bytes f) + 2) / 3)).
Proof.
  unfold fileToBase64. repeat apply conj.
  - intros e ->. reflexivity.
  - intros ->. destruct (data_url_has_second_part f) as (s & ->).
    exists s. reflexivity.
  - intros -> Hty. rewrite (readAsDataURL_split f Hty).
    repeat split; [apply decode_encode | apply encode_length].
Qed.

Lemma fileToBase64_result_witness :
  fileReaderError (Scenario.refusing Scenario.quotaError) Scenario.png10 = None /\
  no_comma (type Scenario.png10) = true /\
  fileToBase64 (Scenario.refusing Scenario.quotaError) Scenario.png10
  = ([ReadAsDataURL Scenario.png10], Normal (Some (lit "iVBORw0KGgoAAQ=="))) /\
  Base64Decode.decode (lit "iVBORw0KGgoAAQ==") = Some (bytes Scenario.png10).
Proof.
  split; [reflexivity|]. split; [reflexivity|].
  destruct (proj2 (proj2 (fileToBase64_result
                            (Scenario.refusing Scenario.quotaError)
                            Scenario.png10)) eq_refl eq_refl)
    as (H1 & H2 & _).
  split; [exact H1 | exact H2].
Defined.
